(** * BedLine: genome coordinate -> CDS/splice position

    A shallow embedding of [permutation2020/python/bed_line.py].

    Python integers are unbounded, hence [Z].  Python [str] values are
    [string].  An exception is a value of [exn]; a computation that may raise
    lives in the [result] monad below.  The attributes the constructor sets on
    [self] are the fields of the record [BedLine]. *)

From Stdlib Require Import ZArith List String Ascii Bool Lia.
Import ListNotations.

Local Open Scope Z_scope.

(** ** Exceptions *)

Inductive exn : Type :=
| ValueError
| TypeError
| IndexError.

Inductive result (A : Type) : Type :=
| Ok (a : A)
| Raise (e : exn).

Arguments Ok {A} a.
Arguments Raise {A} e.

Definition bind {A B : Type} (m : result A) (k : A -> result B) : result B :=
  match m with
  | Ok a => k a
  | Raise e => Raise e
  end.

Notation "x <- m ;; k" := (bind m (fun x => k))
  (at level 61, m at next level, right associativity).

(** [[f(x) for x in l]] where [f] may raise: elements are evaluated left to
    right and the first exception aborts the comprehension. *)
Fixpoint mapM {A B : Type} (f : A -> result B) (l : list A) : result (list B) :=
  match l with
  | [] => Ok []
  | x :: tl =>
      y <- f x ;;
      ys <- mapM f tl ;;
      Ok (y :: ys)
  end.

(** ** The Python builtins the module relies on *)

Module Py.

Definition TAB : ascii := ascii_of_nat 9.
Definition COMMA : ascii := ","%char.

(** [s.split(sep)] for a one-character separator: never returns the empty
    list, [''.split(sep) == ['']]. *)
Fixpoint split (sep : ascii) (s : string) : list string :=
  match s with
  | EmptyString => [EmptyString]
  | String c rest =>
      if Ascii.eqb c sep then EmptyString :: split sep rest
      else match split sep rest with
           | [] => [String c EmptyString]
           | h :: t => String c h :: t
           end
  end.

Fixpoint lstrip (c : ascii) (s : string) : string :=
  match s with
  | EmptyString => EmptyString
  | String a rest => if Ascii.eqb a c then lstrip c rest else s
  end.

Fixpoint rstrip (c : ascii) (s : string) : string :=
  match s with
  | EmptyString => EmptyString
  | String a rest =>
      match rstrip c rest with
      | EmptyString => if Ascii.eqb a c then EmptyString
                       else String a EmptyString
      | r => String a r
      end
  end.

(** [s.strip(c)] for a one-character argument. *)
Definition strip (c : ascii) (s : string) : string := rstrip c (lstrip c s).

(** [str.isspace] on one character: blank, TAB, LF, VT, FF, CR. *)
Definition is_space (a : ascii) : bool :=
  let n := Z.of_N (N_of_ascii a) in
  (n =? 32) || ((9 <=? n) && (n <=? 13)).

Fixpoint lstrip_ws (s : string) : string :=
  match s with
  | EmptyString => EmptyString
  | String a rest => if is_space a then lstrip_ws rest else s
  end.

Fixpoint rstrip_ws (s : string) : string :=
  match s with
  | EmptyString => EmptyString
  | String a rest =>
      match rstrip_ws rest with
      | EmptyString => if is_space a then EmptyString
                       else String a EmptyString
      | r => String a r
      end
  end.

Definition digit_of (a : ascii) : option Z :=
  let n := Z.of_N (N_of_ascii a) in
  if (48 <=? n) && (n <=? 57) then Some (n - 48) else None.

Fixpoint digits (acc : Z) (s : string) : option Z :=
  match s with
  | EmptyString => Some acc
  | String a rest =>
      match digit_of a with
      | Some d => digits (10 * acc + d) rest
      | None => None
      end
  end.

Definition unsigned (s : string) : option Z :=
  match s with
  | EmptyString => None
  | _ => digits 0 s
  end.

(** [int(s)] on a string, base ten: surrounding white space is ignored, one
    optional sign, then at least one decimal digit.  [None] stands for the
    [ValueError] Python raises on anything else. *)
Definition int (s : string) : option Z :=
  match rstrip_ws (lstrip_ws s) with
  | String "+"%char rest => unsigned rest
  | String "-"%char rest => option_map Z.opp (unsigned rest)
  | body => unsigned body
  end.

(** [sum(l)] on a list of integers. *)
Definition sum (l : list Z) : Z := fold_left Z.add l 0.

(** [l[i]] for [i >= 0]; out of range raises [IndexError]. *)
Definition getitem {A : Type} (l : list A) (i : nat) : result A :=
  match nth_error l i with
  | Some x => Ok x
  | None => Raise IndexError
  end.

End Py.

Definition int_or_raise (s : string) : result Z :=
  match Py.int s with
  | Some z => Ok z
  | None => Raise ValueError
  end.

(** ** The named tuple holding the raw fields *)

Module BedTuple.

Record t : Type := make {
  chrom : string;
  chromStart : string;
  chromEnd : string;
  name : string;
  score : string;
  strand : string;
  thickStart : string;
  thickEnd : string;
  itemRgb : string;
  blockCount : string;
  blockSizes : string;
  blockStarts : string
}.

(** The named tuple is built from the keyword dictionary
    [dict(zip(BedTuple._fields, line))]: [zip] stops at the shorter of its
    arguments, so fields past the twelfth are dropped; with fewer than
    twelve the constructor lacks arguments and raises [TypeError]. *)
Definition of_fields (line : list string) : result t :=
  match line with
  | f0 :: f1 :: f2 :: f3 :: f4 :: f5 :: f6 :: f7 :: f8 :: f9 :: f10 :: f11 :: _ =>
      Ok (make f0 f1 f2 f3 f4 f5 f6 f7 f8 f9 f10 f11)
  | _ => Raise TypeError
  end.

End BedTuple.

(** ** The argument of the constructor

    [BedLine(line)] dispatches on the dynamic type of [line]: a [str], a
    [list] (of strings, as the callers pass), or anything else. *)
Inductive py_line : Type :=
| PyStr (s : string)
| PyList (l : list string)
| PyOther.

(** ** The object *)

Record BedLine : Type := mkBedLine {
  bed_tuple : BedTuple.t;
  gene_name : string;
  chrom : string;
  chrom_start : Z;
  strand : string;
  exons : list (Z * Z);
  exon_lens : list Z;
  num_exons : Z;
  cds_len : Z;
  five_ss_len : Z
}.

(** One turn of the loop of [_filter_utr]: the six-way test on one exon,
    appending to [filtered_exons]. *)
Definition filter_utr_step (coding_start coding_end : Z)
    (filtered_exons : list (Z * Z)) (exon : Z * Z) : list (Z * Z) :=
  if (fst exon >? coding_end) && (snd exon >? coding_end) then
    filtered_exons
  else if (fst exon <? coding_start) && (snd exon <? coding_start) then
    filtered_exons
  else if (fst exon <=? coding_start) && (snd exon >=? coding_end) then
    filtered_exons ++ [(coding_start, coding_end)]
  else if (fst exon <=? coding_start) && (snd exon <? coding_end) then
    filtered_exons ++ [(coding_start, snd exon)]
  else if (fst exon >? coding_start) && (snd exon >=? coding_end) then
    filtered_exons ++ [(fst exon, coding_end)]
  else if (fst exon >? coding_start) && (snd exon <? coding_end) then
    filtered_exons ++ [exon]
  else
    filtered_exons.

(** The loop of [_filter_utr], once the coding region is known to be long
    enough. *)
Definition filter_utr_loop (coding_start coding_end : Z) (ex : list (Z * Z))
  : list (Z * Z) :=
  fold_left (filter_utr_step coding_start coding_end) ex [].

Definition _filter_utr (bt : BedTuple.t) (ex : list (Z * Z))
  : result (list (Z * Z)) :=
  coding_start <- int_or_raise (BedTuple.thickStart bt) ;;
  coding_end <- int_or_raise (BedTuple.thickEnd bt) ;;
  if coding_end - coding_start <? 3 then Ok []
  else Ok (filter_utr_loop coding_start coding_end ex).

(** The comma separated entries of [blockStarts] / [blockSizes]. *)
Definition entries (s : string) : list string :=
  Py.split Py.COMMA (Py.strip Py.COMMA s).

(** The local [exons] of [_init_exons]: the raw blocks in chromosome
    coordinates.  [map(int, ...)] is a list here (the module indexes it, as
    Python 2 allows), so every size is converted before the pairing, and a
    start without a size raises [IndexError]. *)
Definition raw_exons (chrom_start : Z) (bt : BedTuple.t)
  : result (list (Z * Z)) :=
  exon_starts <- mapM (fun s => v <- int_or_raise s ;; Ok (chrom_start + v))
                      (entries (BedTuple.blockStarts bt)) ;;
  exon_sizes <- mapM int_or_raise (entries (BedTuple.blockSizes bt)) ;;
  mapM (fun i => st <- Py.getitem exon_starts i ;;
                 sz <- Py.getitem exon_sizes i ;;
                 Ok (st, st + sz))
       (seq 0 (List.length exon_starts)).

(** The body of [__init__] once the named tuple is built: the convenience
    attributes, then [_init_exons]. *)
Definition init_tuple (bt : BedTuple.t) : result BedLine :=
  chrom_start <- int_or_raise (BedTuple.chromStart bt) ;;
  exons <- raw_exons chrom_start bt ;;
  no_utr_exons <- _filter_utr bt exons ;;
  let exon_lens := map (fun e => snd e - fst e) no_utr_exons in
  let num_exons := Z.of_nat (List.length no_utr_exons) in
  Ok {| bed_tuple := bt;
        gene_name := BedTuple.name bt;
        chrom := BedTuple.chrom bt;
        chrom_start := chrom_start;
        strand := BedTuple.strand bt;
        exons := no_utr_exons;
        exon_lens := exon_lens;
        num_exons := num_exons;
        cds_len := Py.sum exon_lens;
        five_ss_len := 2 * (num_exons - 1) |}.

(** [__init__] on the split line. *)
Definition init_fields (line : list string) : result BedLine :=
  bt <- BedTuple.of_fields line ;;
  init_tuple bt.

Definition BedLine_init (line : py_line) : result BedLine :=
  match line with
  | PyStr s => init_fields (Py.split Py.TAB s)
  | PyList l => init_fields l
  | PyOther => Raise ValueError
  end.

Definition get_exons (self : BedLine) : list (Z * Z) := exons self.

Definition get_num_exons (self : BedLine) : Z := num_exons self.

(** ** [query_position] *)

(** What one turn of the [for] loop does: leave the function with a value, or
    go on to the next exon with the current [pos]. *)
Inductive flow : Type :=
| Return (pos : option Z)
| Continue (pos : option Z).

Definition scan_exon (self : BedLine) (strand : string) (genome_coord : Z)
    (i : nat) (exon : Z * Z) (pos : option Z) : flow :=
  let estart := fst exon in
  let eend := snd exon in
  let iz := Z.of_nat i in
  if (estart <=? genome_coord) && (genome_coord <? eend) then
    let prev_lens := Py.sum (firstn i (exon_lens self)) in
    Return (Some (prev_lens + (genome_coord - estart)))
  else if ((eend <=? genome_coord) && (genome_coord <? eend + 2))
          && negb (iz =? num_exons self - 1) then
    if (strand =? "+")%string then
      Continue (Some (cds_len self + 2 * iz + (genome_coord - eend)))
    else if (strand =? "-")%string then
      Continue (Some (cds_len self + five_ss_len self
                      + 2 * (num_exons self - (iz + 2))
                      + (genome_coord - eend)))
    else Continue pos
  else if ((estart - 2 <=? genome_coord) && (genome_coord <? estart))
          && negb (iz =? 0) then
    if (strand =? "-")%string then
      Continue (Some (cds_len self + 2 * (num_exons self - (iz + 2))
                      + (genome_coord - (estart - 2))))
    else if (strand =? "+")%string then
      Continue (Some (cds_len self + five_ss_len self + 2 * (iz - 1)
                      + (genome_coord - (estart - 2))))
    else Continue pos
  else Continue pos.

(** The [for i, (estart, eend) in enumerate(self.exons)] loop from index [i]
    on.  The second component counts the exons the loop has looked at. *)
Fixpoint scan (self : BedLine) (strand : string) (genome_coord : Z)
    (i : nat) (rest : list (Z * Z)) (pos : option Z) : option Z * nat :=
  match rest with
  | [] => (pos, O)
  | exon :: tl =>
      match scan_exon self strand genome_coord i exon pos with
      | Return p => (p, 1%nat)
      | Continue p =>
          let r := scan self strand genome_coord (S i) tl p in
          (fst r, S (snd r))
      end
  end.

(** [query_position] together with the number of exons examined. *)
Definition query_position_run (self : BedLine) (strand chr : string)
    (genome_coord : Z) : option Z * nat :=
  if negb (chr =? chrom self)%string then (None, O)
  else scan self strand genome_coord O (exons self) None.

Definition query_position (self : BedLine) (strand chr : string)
    (genome_coord : Z) : option Z :=
  fst (query_position_run self strand chr genome_coord).

(** ** Reference definitions for the scan

    These follow the wording of the description of [query_position], not its
    loop: the first exon holding the coordinate in its interior, and the list
    of splice-window candidates in the order the scan meets them. *)

Definition interior (genome_coord : Z) (exon : Z * Z) : bool :=
  (fst exon <=? genome_coord) && (genome_coord <? snd exon).

(** The two bases right after the exon. *)
Definition window_after (genome_coord : Z) (exon : Z * Z) : bool :=
  (snd exon <=? genome_coord) && (genome_coord <? snd exon + 2).

(** The two bases right before the exon. *)
Definition window_before (genome_coord : Z) (exon : Z * Z) : bool :=
  (fst exon - 2 <=? genome_coord) && (genome_coord <? fst exon).

Fixpoint first_interior (genome_coord : Z) (i : nat) (l : list (Z * Z))
  : option (nat * (Z * Z)) :=
  match l with
  | [] => None
  | exon :: tl =>
      if interior genome_coord exon then Some (i, exon)
      else first_interior genome_coord (S i) tl
  end.

(** The candidate of case (b) or (c) at exon [i], when one is computed. *)
Definition splice_candidate (self : BedLine) (strand : string)
    (genome_coord : Z) (i : nat) (exon : Z * Z) : option Z :=
  let iz := Z.of_nat i in
  if interior genome_coord exon then None
  else if window_after genome_coord exon && negb (iz =? num_exons self - 1) then
    if (strand =? "+")%string then
      Some (cds_len self + 2 * iz + (genome_coord - snd exon))
    else if (strand =? "-")%string then
      Some (cds_len self + five_ss_len self + 2 * (num_exons self - (iz + 2))
            + (genome_coord - snd exon))
    else None
  else if window_before genome_coord exon && negb (iz =? 0) then
    if (strand =? "-")%string then
      Some (cds_len self + 2 * (num_exons self - (iz + 2))
            + (genome_coord - (fst exon - 2)))
    else if (strand =? "+")%string then
      Some (cds_len self + five_ss_len self + 2 * (iz - 1)
            + (genome_coord - (fst exon - 2)))
    else None
  else None.

Fixpoint candidates (self : BedLine) (strand : string) (genome_coord : Z)
    (i : nat) (l : list (Z * Z)) : list Z :=
  match l with
  | [] => []
  | exon :: tl =>
      match splice_candidate self strand genome_coord i exon with
      | Some c => c :: candidates self strand genome_coord (S i) tl
      | None => candidates self strand genome_coord (S i) tl
      end
  end.

Definition last_candidate (cs : list Z) : option Z :=
  match rev cs with
  | [] => None
  | c :: _ => Some c
  end.

Definition first_candidate (cs : list Z) : option Z := hd_error cs.

(** ** The coding model of an object built by the constructor *)

Definition coding_model (self : BedLine) : Prop :=
  exon_lens self = map (fun e => snd e - fst e) (exons self)
  /\ num_exons self = Z.of_nat (List.length (exons self))
  /\ cds_len self = Py.sum (exon_lens self)
  /\ five_ss_len self = 2 * (num_exons self - 1).

(** Exons of positive length, ascending and pairwise disjoint. *)
Fixpoint ascending (l : list (Z * Z)) : Prop :=
  match l with
  | [] => True
  | e :: tl =>
      fst e < snd e
      /\ match tl with
         | [] => True
         | e' :: _ => snd e <= fst e'
         end
      /\ ascending tl
  end.

(** ** Field-level view of a record *)

Definition fields_of (line : py_line) : option (list string) :=
  match line with
  | PyStr s => Some (Py.split Py.TAB s)
  | PyList l => Some l
  | PyOther => None
  end.

Definition field (n : nat) (l : list string) : string := nth n l EmptyString.

Definition is_int (s : string) : bool :=
  match Py.int s with
  | Some _ => true
  | None => false
  end.

Definition is_ok {A : Type} (r : result A) : bool :=
  match r with
  | Ok _ => true
  | Raise _ => false
  end.

(** What the constructor needs of the fields: at least twelve of them,
    integers where it calls [int], and a size for every block start. *)
Definition record_ok (l : list string) : bool :=
  (12 <=? List.length l)%nat
  && is_int (field 1 l)
  && forallb is_int (entries (field 11 l))
  && forallb is_int (entries (field 10 l))
  && (List.length (entries (field 11 l)) <=? List.length (entries (field 10 l)))%nat
  && is_int (field 6 l)
  && is_int (field 7 l).

(** The failure condition as the description of the parser words it. *)
Definition fails_as_described (line : py_line) : Prop :=
  match fields_of line with
  | None => True
  | Some l =>
      List.length l <> 12%nat
      \/ is_int (field 1 l) = false
      \/ is_int (field 6 l) = false
      \/ is_int (field 7 l) = false
      \/ forallb is_int (entries (field 10 l)) = false
      \/ forallb is_int (entries (field 11 l)) = false
  end.

(** [l] with the entry at index [n] replaced, if there is one. *)
Fixpoint update (n : nat) (v : string) (l : list string) : list string :=
  match l, n with
  | [], _ => []
  | _ :: tl, O => v :: tl
  | x :: tl, S k => x :: update k v tl
  end.

(** Every attribute of the object but the raw tuple. *)
Definition derived (self : BedLine)
  : string * string * Z * string * list (Z * Z) * list Z * Z * Z * Z :=
  (gene_name self, chrom self, chrom_start self, strand self, exons self,
   exon_lens self, num_exons self, cds_len self, five_ss_len self).

Definition result_map {A B : Type} (f : A -> B) (r : result A) : result B :=
  match r with
  | Ok a => Ok (f a)
  | Raise e => Raise e
  end.

(** ** Sample records *)

Definition two_exon_plus : list string :=
  ["chr1"; "100"; "400"; "GENE2"; "0"; "+"; "100"; "400"; "0"; "2";
   "100,100,"; "0,200,"]%string.

Definition two_exon_minus : list string :=
  ["chr1"; "100"; "400"; "GENE2"; "0"; "-"; "100"; "400"; "0"; "2";
   "100,100,"; "0,200,"]%string.

Definition single_exon_plus : list string :=
  ["chr1"; "1000"; "2000"; "GENE1"; "0"; "+"; "1000"; "2000"; "0"; "1";
   "1000,"; "0,"]%string.

(** Blocks [0,100) and [400,500) are untranslated and touch the coding region
    [100,400) from either side. *)
Definition touching_utr : list string :=
  ["chr1"; "0"; "500"; "GENE4"; "0"; "+"; "100"; "400"; "0"; "4";
   "100,100,100,100"; "0,100,300,400"]%string.

(** Four coding blocks, the middle two overlapping and ending together:
    [100,200), [300,400), [350,400), [500,600). *)
Definition overlapping_blocks : list string :=
  ["chr1"; "100"; "600"; "GENE3"; "0"; "+"; "100"; "600"; "0"; "4";
   "100,100,50,100"; "0,200,250,400"]%string.

(** The two-exon record with a thirteenth field. *)
Definition thirteen_fields : list string := two_exon_plus ++ ["extra"%string].

(** Twelve fields, all numeric ones integers, two block starts but a single
    block size. *)
Definition missing_size : list string :=
  ["chr1"; "100"; "400"; "GENE2"; "0"; "+"; "100"; "400"; "0"; "2";
   "100,"; "0,200,"]%string.

(** The two-exon record with a block count that matches nothing. *)
Definition wrong_block_count : list string := update 9 "7" two_exon_plus.

(** One block [900,2100) around the coding region [1000,2000). *)
Definition single_block_utr : list string :=
  ["chr7"; "900"; "2100"; "GENE5"; "0"; "-"; "1000"; "2000"; "0"; "1";
   "1200,"; "0,"]%string.

(** A coding region of two bases. *)
Definition short_coding : list string :=
  ["chr1"; "100"; "400"; "PSEUDO"; "0"; "+"; "150"; "152"; "0"; "2";
   "100,100,"; "0,200,"]%string.

(** The object for a record known to parse; an empty object otherwise. *)
Definition empty_bed : BedLine :=
  let e := EmptyString in
  mkBedLine (BedTuple.make e e e e e e e e e e e e) e e 0 e [] [] 0 0 0.

Definition bed_of (l : list string) : BedLine :=
  match BedLine_init (PyList l) with
  | Ok b => b
  | Raise _ => empty_bed
  end.

(** ** Raw exon geometry *)

(** Blocks as a BED record lists them: none of negative length, each ending
    no later than the next one starts. *)
Fixpoint sorted_disjoint (l : list (Z * Z)) : Prop :=
  match l with
  | [] => True
  | e :: tl =>
      fst e <= snd e
      /\ match tl with
         | [] => True
         | e' :: _ => snd e <= fst e'
         end
      /\ sorted_disjoint tl
  end.

(** Whether the character occurs in the string. *)
Fixpoint has_char (c : ascii) (s : string) : bool :=
  match s with
  | EmptyString => false
  | String a rest => Ascii.eqb a c || has_char c rest
  end.

(** * [bin/simulate_performance.py]: batching of the simulations *)

Module Sim.

Inductive exn : Type :=
| ZeroDivisionError
| ValueError.

(** A generator run to its end: the values it yielded, and the exception
    that ended it if one did. *)
Inductive generated (A : Type) : Type :=
| Exhausted (yielded : list A)
| Failed (yielded : list A) (e : exn).

Arguments Exhausted {A} yielded.
Arguments Failed {A} yielded e.

(** The [for i, df in enumerate(dfg.dataframe_generator())] loop of
    [yield_sim_df] from index [i] on: [rest] is what the data frame generator
    still has to give, [dfg_list] the list being filled, [yielded] the lists
    yielded so far.  [i_plus_1 % num_processes] raises when [num_processes]
    is zero. *)
Fixpoint yield_loop {A : Type} (num_processes : Z) (i : Z) (rest : list A)
    (dfg_list : list A) (yielded : list (list A)) : generated (list A) :=
  match rest with
  | [] =>
      match dfg_list with
      | [] => Exhausted yielded
      | _ => Exhausted (yielded ++ [dfg_list])
      end
  | df :: tl =>
      let dfg_list := dfg_list ++ [df] in
      let i_plus_1 := i + 1 in
      if num_processes =? 0 then Failed yielded ZeroDivisionError
      else if i_plus_1 mod num_processes =? 0 then
        yield_loop num_processes (i + 1) tl [] (yielded ++ [dfg_list])
      else
        yield_loop num_processes (i + 1) tl dfg_list yielded
  end.

(** [yield_sim_df(dfg, num_processes)], on the data frames [dfg] generates. *)
Definition yield_sim_df {A : Type} (dfg : list A) (num_processes : Z)
  : generated (list A) :=
  yield_loop num_processes 0 dfg [] [].

(** [range(start, stop, step)] as a list; a zero step raises [ValueError]. *)
Definition range (start stop step : Z) : option (list Z) :=
  if step =? 0 then None
  else
    let n :=
      if 0 <? step then
        (if start <? stop then (stop - start - 1) / step + 1 else 0)
      else
        (if stop <? start then (start - stop - 1) / (- step) + 1 else 0) in
    Some (map (fun k => start + Z.of_nat k * step) (seq 0 (Z.to_nat n))).

(** [tmp_num_pred] in the round that starts at simulation [i]. *)
Definition tmp_num_pred (num_iter num_processes i : Z) : Z :=
  if i + num_processes >? num_iter then num_iter - i else num_processes.

(** The rounds of [multiprocess_simulate]: one per element of
    [range(0, dfg.num_iter, num_processes)], each handing [tmp_num_pred]
    simulations to the pool.  [None] is the [ValueError] of a zero step. *)
Definition round_sizes (num_iter num_processes : Z) : option (list Z) :=
  option_map (map (tmp_num_pred num_iter num_processes))
             (range 0 num_iter num_processes).

End Sim.

(** * Properties *)

(** ** Checks of the builtins on literals *)

Example int_plain : Py.int "41240941" = Some 41240941.
Proof. reflexivity. Qed.

Example int_signed : Py.int " -12 " = Some (-12).
Proof. reflexivity. Qed.

Example int_bad :
  Py.int "12a" = None /\ Py.int EmptyString = None /\ Py.int "-" = None.
Proof. repeat split; reflexivity. Qed.

Example split_trailing :
  entries "0,24570," = ["0"%string; "24570"%string].
Proof. reflexivity. Qed.

(** The doctest of the class: the first coding base of CTNNB1 is position 0. *)
Example doctest_ctnnb1 :
  let line :=
    ["chr3"; "41240941"; "41281939"; "CTNNB1"; "0"; "+"; "41265559";
     "41280833"; "0"; "16";
     "220,61,228,254,239,202,145,104,339,159,120,151,122,61,221,630,";
     "0,24570,25075,25503,25883,26209,27757,33890,34078,34688,36273,36898,37137,38565,39683,40368,"]%string in
  chrom (bed_of line) = "chr3"%string
  /\ strand (bed_of line) = "+"%string
  /\ query_position (bed_of line) "+" "chr3" 41265559 = Some 0.
Proof. vm_compute. repeat split; reflexivity. Qed.

(** A tab separated line and its list of fields build the same object. *)
Example string_and_list_agree :
  BedLine_init (PyStr (String.concat (String Py.TAB EmptyString) two_exon_minus))
  = BedLine_init (PyList two_exon_minus).
Proof. vm_compute. reflexivity. Qed.

(** ** The loop body against the reference definitions *)

Lemma scan_exon_interior self strand0 coord i exon pos :
  interior coord exon = true ->
  scan_exon self strand0 coord i exon pos
  = Return (Some (Py.sum (firstn i (exon_lens self)) + (coord - fst exon))).
Proof.
  unfold scan_exon, interior. intros ->. reflexivity.
Qed.

Lemma scan_exon_splice self strand0 coord i exon pos :
  interior coord exon = false ->
  scan_exon self strand0 coord i exon pos
  = Continue (match splice_candidate self strand0 coord i exon with
              | Some c => Some c
              | None => pos
              end).
Proof.
  unfold scan_exon, splice_candidate, window_after, window_before.
  intros Hint. rewrite Hint. unfold interior in Hint. rewrite Hint.
  repeat match goal with
         | |- context [if ?b then _ else _] => destruct b
         end; reflexivity.
Qed.

Lemma last_candidate_cons c cs :
  last_candidate (c :: cs)
  = match last_candidate cs with
    | Some c' => Some c'
    | None => Some c
    end.
Proof.
  unfold last_candidate. simpl. destruct (rev cs); reflexivity.
Qed.

Lemma first_interior_bounds coord l : forall i j exon,
  first_interior coord i l = Some (j, exon) ->
  (i <= j)%nat /\ interior coord exon = true
  /\ nth_error l (j - i) = Some exon.
Proof.
  induction l as [|e tl IH]; simpl; intros i j exon H; [discriminate|].
  destruct (interior coord e) eqn:He.
  - inversion H; subst. rewrite Nat.sub_diag. auto.
  - apply IH in H. destruct H as (Hle & Hin & Hnth).
    replace (j - i)%nat with (S (j - S i)) by lia. simpl. repeat split; auto; lia.
Qed.

Lemma first_interior_none coord l : forall i,
  first_interior coord i l = None <->
  forall exon, In exon l -> interior coord exon = false.
Proof.
  induction l as [|e tl IH]; simpl; intros i.
  - split; [intros _ ? [] | reflexivity].
  - destruct (interior coord e) eqn:He.
    + split; [discriminate|]. intros H. rewrite H in He by auto. discriminate.
    + rewrite IH. split.
      * intros H exon [<-|Hin]; auto.
      * intros H exon Hin. auto.
Qed.

(** The loop, started at any index with any pending [pos]. *)
Lemma scan_spec self strand0 coord l : forall i pos,
  match first_interior coord i l with
  | Some (j, exon) =>
      fst (scan self strand0 coord i l pos)
      = Some (Py.sum (firstn j (exon_lens self)) + (coord - fst exon))
      /\ (i + snd (scan self strand0 coord i l pos) = S j)%nat
  | None =>
      scan self strand0 coord i l pos
      = (match last_candidate (candidates self strand0 coord i l) with
         | Some c => Some c
         | None => pos
         end, List.length l)
  end.
Proof.
  induction l as [|e tl IH]; intros i pos; simpl.
  - reflexivity.
  - destruct (interior coord e) eqn:He.
    + rewrite scan_exon_interior by assumption. simpl. split; [reflexivity|lia].
    + rewrite scan_exon_splice by assumption.
      specialize (IH (S i) (match splice_candidate self strand0 coord i e with
                            | Some c => Some c
                            | None => pos
                            end)).
      destruct (first_interior coord (S i) tl) as [[j exon]|] eqn:Hfi.
      * simpl. destruct IH as [IH1 IH2]. split; [exact IH1|lia].
      * rewrite IH. simpl.
        destruct (splice_candidate self strand0 coord i e) as [c|]; [|reflexivity].
        rewrite last_candidate_cons.
        destruct (last_candidate (candidates self strand0 coord (S i) tl));
          reflexivity.
Qed.

(** C1. Only the coding-exon-interior case leaves the scan: with the gene's
    own chromosome, if some exon holds the coordinate in its interior the
    result is the prefix sum at the first such exon and the loop has looked
    at no later exon; otherwise every exon is looked at and the result is the
    last splice-window candidate computed on the way, [None] if there was
    none. *)
Theorem query_position_first_interior_else_last_candidate :
  forall (self : BedLine) (strand0 : string) (genome_coord : Z),
    query_position_run self strand0 (chrom self) genome_coord
    = match first_interior genome_coord 0 (exons self) with
      | Some (i, exon) =>
          (Some (Py.sum (firstn i (exon_lens self))
                 + (genome_coord - fst exon)), S i)
      | None =>
          (last_candidate (candidates self strand0 genome_coord 0 (exons self)),
           List.length (exons self))
      end.
Proof.
  intros self strand0 coord. unfold query_position_run.
  rewrite String.eqb_refl. simpl.
  pose proof (scan_spec self strand0 coord (exons self) 0%nat None) as H.
  destruct (first_interior coord 0 (exons self)) as [[j exon]|].
  - destruct H as [H1 H2]. simpl in H2.
    destruct (scan self strand0 coord 0 (exons self) None) as [r k].
    simpl in *. subst. reflexivity.
  - rewrite H.
    destruct (last_candidate (candidates self strand0 coord 0 (exons self)));
      reflexivity.
Qed.

(** With overlapping blocks one coordinate can sit in two splice windows: 400
    is right after [300,400) and right after [350,400).  Both turns compute a
    candidate and the scan answers with the later one. *)
Example last_candidate_wins_on_overlap :
  exons (bed_of overlapping_blocks)
  = [(100, 200); (300, 400); (350, 400); (500, 600)]
  /\ candidates (bed_of overlapping_blocks) "+" 400 0
       (exons (bed_of overlapping_blocks)) = [352; 354]
  /\ query_position (bed_of overlapping_blocks) "+" "chr1" 400 = Some 354.
Proof. vm_compute. repeat split; reflexivity. Qed.

(** ** [query_position] in closed form *)

Lemma query_position_closed_form self strand0 chr coord :
  query_position self strand0 chr coord
  = if negb (chr =? chrom self)%string then None
    else match first_interior coord 0 (exons self) with
         | Some (i, exon) =>
             Some (Py.sum (firstn i (exon_lens self)) + (coord - fst exon))
         | None =>
             last_candidate (candidates self strand0 coord 0 (exons self))
         end.
Proof.
  unfold query_position, query_position_run.
  destruct (negb (chr =? chrom self)%string); [reflexivity|].
  pose proof (scan_spec self strand0 coord (exons self) 0%nat None) as H.
  destruct (first_interior coord 0 (exons self)) as [[j exon]|].
  - apply H.
  - rewrite H. simpl.
    destruct (last_candidate (candidates self strand0 coord 0 (exons self)));
      reflexivity.
Qed.

Lemma candidates_unknown_strand self strand0 coord l : forall i,
  strand0 <> "+"%string -> strand0 <> "-"%string ->
  candidates self strand0 coord i l = [].
Proof.
  intros i Hp Hm. revert i.
  apply String.eqb_neq in Hp. apply String.eqb_neq in Hm.
  induction l as [|e tl IH]; intros i; simpl; [reflexivity|].
  unfold splice_candidate. rewrite Hp, Hm.
  repeat match goal with
         | |- context [if ?b then _ else _] => destruct b
         end; apply IH.
Qed.

(** ** What the constructor establishes *)

Lemma bind_ok {A B} (m : result A) (k : A -> result B) b :
  (x <- m ;; k x) = Ok b -> exists a, m = Ok a /\ k a = Ok b.
Proof.
  destruct m as [a|e]; simpl; [eauto | discriminate].
Qed.

Lemma ok_inj {A} (a b : A) : Ok a = Ok b -> a = b.
Proof. congruence. Qed.

Lemma int_or_raise_ok s z : int_or_raise s = Ok z -> Py.int s = Some z.
Proof.
  unfold int_or_raise. destruct (Py.int s); congruence.
Qed.

Lemma init_fields_ok l self :
  init_fields l = Ok self ->
  exists bt cs ce raw,
    BedTuple.of_fields l = Ok bt
    /\ bed_tuple self = bt
    /\ Py.int (BedTuple.chromStart bt) = Some (chrom_start self)
    /\ raw_exons (chrom_start self) bt = Ok raw
    /\ Py.int (BedTuple.thickStart bt) = Some cs
    /\ Py.int (BedTuple.thickEnd bt) = Some ce
    /\ exons self = (if ce - cs <? 3 then [] else filter_utr_loop cs ce raw)
    /\ coding_model self.
Proof.
  unfold init_fields. intros H.
  apply bind_ok in H as (bt & Hbt & H). unfold init_tuple in H.
  apply bind_ok in H as (cstart & Hcs & H).
  apply bind_ok in H as (raw & Hraw & H).
  apply bind_ok in H as (noutr & Hf & H).
  unfold _filter_utr in Hf.
  apply bind_ok in Hf as (cs & Hts & Hf).
  apply bind_ok in Hf as (ce & Hte & Hf).
  apply int_or_raise_ok in Hcs, Hts, Hte.
  inversion H; subst self; clear H. simpl.
  exists bt, cs, ce, raw. repeat split; auto.
  destruct (ce - cs <? 3); inversion Hf; reflexivity.
Qed.

Lemma BedLine_init_ok line self :
  BedLine_init line = Ok self ->
  exists l, fields_of line = Some l /\ init_fields l = Ok self.
Proof.
  destruct line; simpl; intros H; try discriminate; eauto.
Qed.

Lemma BedLine_init_coding_model line self :
  BedLine_init line = Ok self -> coding_model self.
Proof.
  intros H. apply BedLine_init_ok in H as (l & _ & H).
  apply init_fields_ok in H as (bt & cs & ce & raw & H). apply H.
Qed.

(** C7. A chromosome other than the gene's gives [None], whatever the strand
    and the coordinate, and the loop over the exons is not entered: no exon
    is looked at. *)
Theorem query_position_wrong_chromosome :
  forall (self : BedLine) (strand0 chr : string) (genome_coord : Z),
    chr <> chrom self ->
    query_position self strand0 chr genome_coord = None
    /\ query_position_run self strand0 chr genome_coord = (None, 0%nat).
Proof.
  intros self strand0 chr coord Hne.
  unfold query_position, query_position_run.
  apply String.eqb_neq in Hne. rewrite Hne. simpl. split; reflexivity.
Qed.

Lemma query_position_wrong_chromosome_witness :
  "chr2"%string <> chrom (bed_of two_exon_plus)
  /\ query_position (bed_of two_exon_plus) "+" "chr2" 150 = None
  /\ query_position_run (bed_of two_exon_plus) "+" "chr2" 150 = (None, 0%nat).
Proof.
  assert (H : "chr2"%string <> chrom (bed_of two_exon_plus))
    by (vm_compute; discriminate).
  split; [exact H|].
  exact (query_position_wrong_chromosome (bed_of two_exon_plus) "+" "chr2" 150 H).
Defined.

(** C9. The strand argument only matters in splice windows: when the
    coordinate is in the interior of a coding exon, any two strand arguments
    give the same answer; and a strand argument that is neither "+" nor "-"
    gets [None] whenever the coordinate is in no coding-exon interior, since
    no candidate is ever computed for it. *)
Theorem strand_only_matters_in_splice_windows :
  forall (self : BedLine) (chr : string) (genome_coord : Z),
    ((exists exon, In exon (exons self) /\ interior genome_coord exon = true) ->
     forall s1 s2 : string,
       query_position self s1 chr genome_coord
       = query_position self s2 chr genome_coord)
    /\ ((forall exon, In exon (exons self) -> interior genome_coord exon = false) ->
        forall s : string, s <> "+"%string -> s <> "-"%string ->
          query_position self s chr genome_coord = None).
Proof.
  intros self chr coord. split.
  - intros (exon & Hin & Hint) s1 s2.
    rewrite !query_position_closed_form.
    destruct (first_interior coord 0 (exons self)) as [[j e]|] eqn:Hfi;
      [reflexivity|].
    rewrite first_interior_none in Hfi. rewrite Hfi in Hint by assumption.
    discriminate.
  - intros Hnone s Hp Hm. rewrite query_position_closed_form.
    destruct (negb (chr =? chrom self)%string); [reflexivity|].
    apply (first_interior_none coord (exons self) 0%nat) in Hnone.
    rewrite Hnone, candidates_unknown_strand by assumption. reflexivity.
Qed.

Lemma strand_only_matters_in_splice_windows_witness :
  (exists exon, In exon (exons (bed_of two_exon_plus))
                /\ interior 150 exon = true)
  /\ query_position (bed_of two_exon_plus) "+" "chr1" 150
     = query_position (bed_of two_exon_plus) "?" "chr1" 150
  /\ (forall exon, In exon (exons (bed_of two_exon_plus)) ->
                   interior 200 exon = false)
  /\ "?"%string <> "+"%string /\ "?"%string <> "-"%string
  /\ query_position (bed_of two_exon_plus) "?" "chr1" 200 = None.
Proof.
  assert (H1 : exists exon, In exon (exons (bed_of two_exon_plus))
                            /\ interior 150 exon = true).
  { exists (100, 200). split; [left; reflexivity | reflexivity]. }
  assert (H2 : forall exon, In exon (exons (bed_of two_exon_plus)) ->
                            interior 200 exon = false).
  { intros exon [<-|[<-|[]]]; reflexivity. }
  assert (Hp : "?"%string <> "+"%string) by discriminate.
  assert (Hm : "?"%string <> "-"%string) by discriminate.
  split; [exact H1|].
  split; [exact (proj1 (strand_only_matters_in_splice_windows
                          (bed_of two_exon_plus) "chr1" 150) H1 "+" "?")%string|].
  split; [exact H2|]. split; [exact Hp|]. split; [exact Hm|].
  exact (proj2 (strand_only_matters_in_splice_windows
                  (bed_of two_exon_plus) "chr1" 200) H2 "?"%string Hp Hm).
Defined.

(** C6. When the coding region spans fewer than three bases
    ([thickEnd - thickStart < 3]) the object has no coding exon, and
    [query_position] answers [None] for every strand, chromosome and
    coordinate. *)
Theorem short_coding_region_never_resolves :
  forall (line : py_line) (self : BedLine) (coding_start coding_end : Z),
    BedLine_init line = Ok self ->
    Py.int (BedTuple.thickStart (bed_tuple self)) = Some coding_start ->
    Py.int (BedTuple.thickEnd (bed_tuple self)) = Some coding_end ->
    coding_end - coding_start < 3 ->
    exons self = []
    /\ get_num_exons self = 0
    /\ forall (strand0 chr : string) (genome_coord : Z),
         query_position self strand0 chr genome_coord = None.
Proof.
  intros line self cs ce Hinit Hcs Hce Hshort.
  pose proof (BedLine_init_coding_model _ _ Hinit) as (_ & Hnum & _).
  apply BedLine_init_ok in Hinit as (l & _ & Hinit).
  apply init_fields_ok in Hinit
    as (bt & cs' & ce' & raw & _ & Hbt & _ & _ & Hcs' & Hce' & Hex & _).
  subst bt. rewrite Hcs in Hcs'. rewrite Hce in Hce'.
  inversion Hcs'; inversion Hce'; subst cs' ce'.
  apply Z.ltb_lt in Hshort. rewrite Hshort in Hex.
  split; [exact Hex|]. split.
  - unfold get_num_exons. rewrite Hnum, Hex. reflexivity.
  - intros strand0 chr coord. rewrite query_position_closed_form, Hex. simpl.
    destruct (negb (chr =? chrom self)%string); reflexivity.
Qed.

Lemma short_coding_region_never_resolves_witness :
  BedLine_init (PyList short_coding) = Ok (bed_of short_coding)
  /\ Py.int (BedTuple.thickStart (bed_tuple (bed_of short_coding))) = Some 150
  /\ Py.int (BedTuple.thickEnd (bed_tuple (bed_of short_coding))) = Some 152
  /\ 152 - 150 < 3
  /\ exons (bed_of short_coding) = []
  /\ get_num_exons (bed_of short_coding) = 0
  /\ forall (strand0 chr : string) (genome_coord : Z),
       query_position (bed_of short_coding) strand0 chr genome_coord = None.
Proof.
  assert (H1 : BedLine_init (PyList short_coding) = Ok (bed_of short_coding))
    by (vm_compute; reflexivity).
  assert (H2 : Py.int (BedTuple.thickStart (bed_tuple (bed_of short_coding)))
               = Some 150) by (vm_compute; reflexivity).
  assert (H3 : Py.int (BedTuple.thickEnd (bed_tuple (bed_of short_coding)))
               = Some 152) by (vm_compute; reflexivity).
  assert (H4 : 152 - 150 < 3) by lia.
  split; [exact H1|]. split; [exact H2|]. split; [exact H3|].
  split; [exact H4|].
  exact (short_coding_region_never_resolves
           (PyList short_coding) (bed_of short_coding) 150 152 H1 H2 H3 H4).
Defined.

(** C8. A gene whose only coding exon is [1000,2000): on its own chromosome
    coordinate 1000 maps to 0, 1999 to 999 and 2000 to [None].  The exon is at
    once the first and the last one, so neither splice window exists: every
    coordinate outside the exon gets [None], for every strand argument. *)
Theorem single_exon_gene_positions :
  forall self : BedLine,
    coding_model self ->
    exons self = [(1000, 2000)] ->
    query_position self "+" (chrom self) 1000 = Some 0
    /\ query_position self "+" (chrom self) 1999 = Some 999
    /\ query_position self "+" (chrom self) 2000 = None
    /\ forall (strand0 : string) (genome_coord : Z),
         query_position self strand0 (chrom self) genome_coord
         = if interior genome_coord (1000, 2000)
           then Some (genome_coord - 1000) else None.
Proof.
  intros self (Hlens & Hnum & Hcds & Hss) Hex.
  assert (Hall : forall (strand0 : string) (genome_coord : Z),
             query_position self strand0 (chrom self) genome_coord
             = if interior genome_coord (1000, 2000)
               then Some (genome_coord - 1000) else None).
  { intros strand0 coord. rewrite query_position_closed_form.
    rewrite String.eqb_refl, Hex. simpl.
    destruct (interior coord (1000, 2000)) eqn:Hint.
    - reflexivity.
    - unfold splice_candidate. rewrite Hint, Hnum, Hex. simpl.
      rewrite !andb_false_r. reflexivity. }
  repeat split; try apply Hall.
Qed.

Lemma single_exon_gene_positions_witness :
  coding_model (bed_of single_exon_plus)
  /\ exons (bed_of single_exon_plus) = [(1000, 2000)]
  /\ query_position (bed_of single_exon_plus) "+" "chr1" 1000 = Some 0
  /\ query_position (bed_of single_exon_plus) "+" "chr1" 1999 = Some 999
  /\ query_position (bed_of single_exon_plus) "+" "chr1" 2000 = None.
Proof.
  assert (H1 : coding_model (bed_of single_exon_plus))
    by (apply (BedLine_init_coding_model (PyList single_exon_plus));
        vm_compute; reflexivity).
  assert (H2 : exons (bed_of single_exon_plus) = [(1000, 2000)])
    by (vm_compute; reflexivity).
  split; [exact H1|]. split; [exact H2|].
  pose proof (single_exon_gene_positions (bed_of single_exon_plus) H1 H2)
    as (Ha & Hb & Hc & _).
  split; [exact Ha|]. split; [exact Hb|exact Hc].
Defined.

(** C4. A gene with the two coding exons [100,200) and [300,400) has
    [cds_len = 200], two exons and [five_ss_len = 2]; with strand "+",
    coordinate 200 (first base after exon 0) maps to [cds_len + 2*0 + 0 = 200]
    and coordinate 299 (last base before exon 1) to
    [cds_len + five_ss_len + 2*0 + 1 = 203]. *)
Theorem two_exon_plus_splice_positions :
  forall self : BedLine,
    coding_model self ->
    exons self = [(100, 200); (300, 400)] ->
    cds_len self = 200
    /\ num_exons self = 2
    /\ five_ss_len self = 2
    /\ query_position self "+" (chrom self) 200 = Some 200
    /\ query_position self "+" (chrom self) 299 = Some 203.
Proof.
  intros self (Hlens & Hnum & Hcds & Hss) Hex.
  rewrite Hex in Hlens, Hnum. simpl in Hlens, Hnum.
  rewrite Hlens in Hcds. rewrite Hnum in Hss.
  change (cds_len self = 200) in Hcds. change (five_ss_len self = 2) in Hss.
  repeat split; try assumption.
  - rewrite query_position_closed_form, String.eqb_refl, Hex. simpl.
    unfold splice_candidate. rewrite ?Hcds, ?Hnum, ?Hss. reflexivity.
  - rewrite query_position_closed_form, String.eqb_refl, Hex. simpl.
    unfold splice_candidate. rewrite ?Hcds, ?Hnum, ?Hss. reflexivity.
Qed.

Lemma two_exon_plus_splice_positions_witness :
  coding_model (bed_of two_exon_plus)
  /\ exons (bed_of two_exon_plus) = [(100, 200); (300, 400)]
  /\ query_position (bed_of two_exon_plus) "+" "chr1" 200 = Some 200
  /\ query_position (bed_of two_exon_plus) "+" "chr1" 299 = Some 203.
Proof.
  assert (H1 : coding_model (bed_of two_exon_plus))
    by (apply (BedLine_init_coding_model (PyList two_exon_plus));
        vm_compute; reflexivity).
  assert (H2 : exons (bed_of two_exon_plus) = [(100, 200); (300, 400)])
    by (vm_compute; reflexivity).
  split; [exact H1|]. split; [exact H2|].
  pose proof (two_exon_plus_splice_positions (bed_of two_exon_plus) H1 H2)
    as (_ & _ & _ & Ha & Hb).
  split; [exact Ha|exact Hb].
Defined.

(** ** The coding-region filter *)

Lemma filter_utr_step_app cs ce acc exon :
  filter_utr_step cs ce acc exon = acc ++ filter_utr_step cs ce [] exon.
Proof.
  unfold filter_utr_step.
  repeat match goal with
         | |- context [if ?b then _ else _] => destruct b
         end; simpl; auto using app_nil_r.
Qed.

Lemma filter_utr_fold cs ce ex : forall acc,
  fold_left (filter_utr_step cs ce) ex acc
  = acc ++ flat_map (filter_utr_step cs ce []) ex.
Proof.
  induction ex as [|e tl IH]; intros acc; simpl.
  - symmetry. apply app_nil_r.
  - rewrite IH, (filter_utr_step_app cs ce acc e), <- app_assoc. reflexivity.
Qed.

(** The filter treats the exons one by one, in order. *)
Lemma filter_utr_loop_flat_map cs ce ex :
  filter_utr_loop cs ce ex = flat_map (filter_utr_step cs ce []) ex.
Proof.
  unfold filter_utr_loop. apply filter_utr_fold.
Qed.

Ltac step_cases :=
  unfold filter_utr_step; simpl fst; simpl snd;
  rewrite ?Z.gtb_ltb, ?Z.geb_leb;
  repeat match goal with
         | |- context [?a <? ?b] => destruct (Z.ltb_spec a b)
         | |- context [?a <=? ?b] => destruct (Z.leb_spec a b)
         end; simpl; try reflexivity; try lia.

(** An exon that starts strictly after the coding end is dropped. *)
Lemma filter_drops_strictly_after cs ce s e :
  ce < s -> s <= e -> filter_utr_step cs ce [] (s, e) = [].
Proof. intros; step_cases. Qed.

(** An exon that ends strictly before the coding start is dropped. *)
Lemma filter_drops_strictly_before cs ce s e :
  e < cs -> s <= e -> filter_utr_step cs ce [] (s, e) = [].
Proof. intros; step_cases. Qed.

(** An exon that ends exactly at the coding start is kept, as the empty
    interval at the coding start. *)
Lemma filter_keeps_exon_ending_at_coding_start cs ce s :
  3 <= ce - cs -> s <= cs -> filter_utr_step cs ce [] (s, cs) = [(cs, cs)].
Proof. intros; step_cases. Qed.

(** An exon that starts exactly at the coding end is kept, as the empty
    interval at the coding end. *)
Lemma filter_keeps_exon_starting_at_coding_end cs ce e :
  3 <= ce - cs -> ce <= e -> filter_utr_step cs ce [] (ce, e) = [(ce, ce)].
Proof. intros; step_cases. Qed.

(** An exon that contains the whole coding region is cut down to it. *)
Lemma filter_exon_containing_coding_region cs ce s e :
  3 <= ce - cs -> s <= cs -> ce <= e ->
  filter_utr_step cs ce [] (s, e) = [(cs, ce)].
Proof. intros; step_cases. Qed.

(** C3. The filter on the record [touching_utr], coding region [100,400):
    the block [0,100), which ends where the coding region starts, and the
    block [400,500), which starts where it ends, are not dropped.  Each
    leaves an empty interval in the coding exon list, so the object counts
    four exons where two are coding, and coordinate 400, right after the last
    coding base, resolves to a splice position. *)
Theorem filter_utr_keeps_touching_exons :
  3 <= 400 - 100
  /\ raw_exons 0 (bed_tuple (bed_of touching_utr))
     = Ok [(0, 100); (100, 200); (300, 400); (400, 500)]
  /\ filter_utr_loop 100 400 [(0, 100); (100, 200); (300, 400); (400, 500)]
     = [(100, 100); (100, 200); (300, 400); (400, 400)]
  /\ BedLine_init (PyList touching_utr) = Ok (bed_of touching_utr)
  /\ exons (bed_of touching_utr)
     = [(100, 100); (100, 200); (300, 400); (400, 400)]
  /\ get_num_exons (bed_of touching_utr) = 4
  /\ five_ss_len (bed_of touching_utr) = 6
  /\ query_position (bed_of touching_utr) "+" "chr1" 400 = Some 204.
Proof.
  split; [lia|]. vm_compute. repeat split; reflexivity.
Qed.

(** ** The position axis *)

Lemma sum_from acc l : fold_left Z.add l acc = acc + Py.sum l.
Proof.
  unfold Py.sum. revert acc.
  induction l as [|a tl IH]; intros acc; simpl; [lia|].
  rewrite (IH (acc + a)), (IH a). lia.
Qed.

Lemma sum_cons a l : Py.sum (a :: l) = a + Py.sum l.
Proof. unfold Py.sum at 1. simpl. apply sum_from. Qed.

Lemma sum_lens_nonneg (l : list (Z * Z)) :
  (forall e, In e l -> fst e <= snd e) ->
  0 <= Py.sum (map (fun e => snd e - fst e) l).
Proof.
  induction l as [|a tl IH]; intros H; simpl.
  - reflexivity.
  - rewrite sum_cons. specialize (H a (or_introl eq_refl)) as Ha.
    assert (0 <= Py.sum (map (fun e => snd e - fst e) tl))
      by (apply IH; intros; apply H; right; assumption).
    lia.
Qed.

(** A coordinate inside a coding exon lands in [0, cds_len). *)
Lemma interior_position_range coord (l : list (Z * Z)) : forall i j exon,
  (forall e, In e l -> fst e <= snd e) ->
  first_interior coord i l = Some (j, exon) ->
  0 <= Py.sum (firstn (j - i) (map (fun e => snd e - fst e) l))
       + (coord - fst exon)
    < Py.sum (map (fun e => snd e - fst e) l).
Proof.
  induction l as [|a tl IH]; intros i j exon Hpos H; simpl in H; [discriminate|].
  destruct (interior coord a) eqn:Ha.
  - inversion H; subst. rewrite Nat.sub_diag. simpl firstn.
    simpl map. rewrite sum_cons.
    unfold interior in Ha. apply andb_prop in Ha as [H1 H2].
    apply Z.leb_le in H1. apply Z.ltb_lt in H2.
    assert (0 <= Py.sum (map (fun e => snd e - fst e) tl))
      by (apply sum_lens_nonneg; intros; apply Hpos; right; assumption).
    change (Py.sum []) with 0. lia.
  - pose proof (first_interior_bounds _ _ _ _ _ H) as (Hle & _).
    replace (j - i)%nat with (S (j - S i)) by lia.
    simpl. rewrite !sum_cons.
    specialize (IH (S i) j exon
                  (fun e He => Hpos e (or_intror He)) H).
    specialize (Hpos a (or_introl eq_refl)). lia.
Qed.

Lemma last_candidate_in cs c : last_candidate cs = Some c -> In c cs.
Proof.
  unfold last_candidate. intros H. apply in_rev.
  destruct (rev cs) as [|x tl]; inversion H; subst. left. reflexivity.
Qed.

Lemma candidates_in self strand0 coord l : forall i c,
  In c (candidates self strand0 coord i l) ->
  exists k exon, (k < List.length l)%nat
                 /\ splice_candidate self strand0 coord (i + k) exon = Some c.
Proof.
  induction l as [|a tl IH]; intros i c H; simpl in H; [contradiction|].
  destruct (splice_candidate self strand0 coord i a) as [c'|] eqn:Hc.
  - destruct H as [<-|H].
    + exists 0%nat, a. rewrite Nat.add_0_r. simpl. split; [lia|assumption].
    + apply IH in H as (k & exon & Hk & H). exists (S k), exon.
      rewrite Nat.add_succ_r. simpl. split; [lia|assumption].
  - apply IH in H as (k & exon & Hk & H). exists (S k), exon.
    rewrite Nat.add_succ_r. simpl. split; [lia|assumption].
Qed.

Lemma some_inj {A : Type} (a b : A) : Some a = Some b -> a = b.
Proof. congruence. Qed.

Ltac candidate_cases H :=
  unfold splice_candidate, window_after, window_before in H;
  try change ("+" =? "+")%string with true in H;
  try change ("-" =? "-")%string with true in H;
  try change ("+" =? "-")%string with false in H;
  try change ("-" =? "+")%string with false in H;
  cbv beta iota zeta in H;
  repeat match type of H with
         | context [if ?b then _ else _] =>
             let E := fresh "E" in destruct b eqn:E
         end; try discriminate; apply some_inj in H; rewrite <- H; clear H;
  repeat match goal with
         | E : _ && _ = true |- _ => apply andb_prop in E as [? ?]
         | E : negb _ = true |- _ => apply negb_true_iff in E
         | E : (_ <=? _) = true |- _ => apply Z.leb_le in E
         | E : (_ <? _) = true |- _ => apply Z.ltb_lt in E
         | E : (_ =? _) = false |- _ => apply Z.eqb_neq in E
         end.

(** With strand "+", a candidate at an existing exon index is a splice
    position: at or after [cds_len], below [cds_len + 2 * five_ss_len]. *)
Lemma splice_candidate_plus_range self coord i exon c :
  five_ss_len self = 2 * (num_exons self - 1) ->
  Z.of_nat i < num_exons self ->
  splice_candidate self "+" coord i exon = Some c ->
  cds_len self <= c < cds_len self + 2 * five_ss_len self.
Proof.
  intros Hss Hi H. candidate_cases H; lia.
Qed.

(** With strand "-", a candidate can fall two below [cds_len]. *)
Lemma splice_candidate_minus_range self coord i exon c :
  five_ss_len self = 2 * (num_exons self - 1) ->
  Z.of_nat i < num_exons self ->
  splice_candidate self "-" coord i exon = Some c ->
  cds_len self - 2 <= c < cds_len self + 2 * five_ss_len self.
Proof.
  intros Hss Hi H. candidate_cases H; lia.
Qed.

(** The answers for strand "+" respect the partition of the axis. *)
Lemma plus_strand_axis self chr coord p :
  coding_model self ->
  (forall e, In e (exons self) -> fst e <= snd e) ->
  query_position self "+" chr coord = Some p ->
  match first_interior coord 0 (exons self) with
  | Some _ => 0 <= p < cds_len self
  | None => cds_len self <= p < cds_len self + 2 * five_ss_len self
  end.
Proof.
  intros (Hlens & Hnum & Hcds & Hss) Hpos H.
  rewrite query_position_closed_form in H.
  destruct (negb (chr =? chrom self)%string); [discriminate|].
  destruct (first_interior coord 0 (exons self)) as [[j exon]|] eqn:Hfi.
  - inversion H; subst p. rewrite Hcds, Hlens.
    pose proof (interior_position_range coord (exons self) 0 j exon Hpos Hfi).
    rewrite Nat.sub_0_r in *. assumption.
  - apply last_candidate_in, candidates_in in H as (k & exon & Hk & H).
    apply (splice_candidate_plus_range self coord (0 + k) exon p Hss); [lia|].
    exact H.
Qed.

(** For strand "-" only the weaker lower bound [cds_len - 2] holds. *)
Lemma minus_strand_axis self chr coord p :
  coding_model self ->
  (forall e, In e (exons self) -> fst e <= snd e) ->
  query_position self "-" chr coord = Some p ->
  match first_interior coord 0 (exons self) with
  | Some _ => 0 <= p < cds_len self
  | None => cds_len self - 2 <= p < cds_len self + 2 * five_ss_len self
  end.
Proof.
  intros (Hlens & Hnum & Hcds & Hss) Hpos H.
  rewrite query_position_closed_form in H.
  destruct (negb (chr =? chrom self)%string); [discriminate|].
  destruct (first_interior coord 0 (exons self)) as [[j exon]|] eqn:Hfi.
  - inversion H; subst p. rewrite Hcds, Hlens.
    pose proof (interior_position_range coord (exons self) 0 j exon Hpos Hfi).
    rewrite Nat.sub_0_r in *. assumption.
  - apply last_candidate_in, candidates_in in H as (k & exon & Hk & H).
    apply (splice_candidate_minus_range self coord (0 + k) exon p Hss); [lia|].
    exact H.
Qed.

(** C2. The two-exon gene [100,200), [300,400) queried with strand "-":
    the exons are ascending, disjoint and of positive length, coordinate 298
    is in no exon but in the two bases before the last exon, and the answer
    is 198, below [cds_len = 200].  It is the answer for the coding base 398
    as well. *)
Theorem minus_strand_window_before_last_exon_in_coding_range :
  BedLine_init (PyList two_exon_minus) = Ok (bed_of two_exon_minus)
  /\ exons (bed_of two_exon_minus) = [(100, 200); (300, 400)]
  /\ ascending (exons (bed_of two_exon_minus))
  /\ cds_len (bed_of two_exon_minus) = 200
  /\ first_interior 298 0 (exons (bed_of two_exon_minus)) = None
  /\ window_before 298 (300, 400) = true
  /\ query_position (bed_of two_exon_minus) "-" "chr1" 298 = Some 198
  /\ query_position (bed_of two_exon_minus) "-" "chr1" 299 = Some 199
  /\ query_position (bed_of two_exon_minus) "-" "chr1" 398 = Some 198.
Proof.
  vm_compute. repeat split; try reflexivity; try discriminate.
Qed.

(** ** When the constructor raises *)

Lemma of_fields_spec l :
  BedTuple.of_fields l
  = if (12 <=? List.length l)%nat
    then Ok (BedTuple.make (field 0 l) (field 1 l) (field 2 l) (field 3 l)
               (field 4 l) (field 5 l) (field 6 l) (field 7 l) (field 8 l)
               (field 9 l) (field 10 l) (field 11 l))
    else Raise TypeError.
Proof.
  do 12 (destruct l as [|? l]; [reflexivity|]). reflexivity.
Qed.

Lemma is_ok_int_or_raise s : is_ok (int_or_raise s) = is_int s.
Proof.
  unfold int_or_raise, is_int. destruct (Py.int s); reflexivity.
Qed.

Lemma is_ok_mapM {A B} (f : A -> result B) l :
  is_ok (mapM f l) = forallb (fun x => is_ok (f x)) l.
Proof.
  induction l as [|x tl IH]; simpl; [reflexivity|].
  destruct (f x); simpl; [|reflexivity].
  rewrite <- IH. destruct (mapM f tl); reflexivity.
Qed.

Lemma mapM_length {A B} (f : A -> result B) l : forall ys,
  mapM f l = Ok ys -> List.length ys = List.length l.
Proof.
  induction l as [|x tl IH]; simpl; intros ys H.
  - inversion H. reflexivity.
  - apply bind_ok in H as (y & _ & H). apply bind_ok in H as (ys' & Hys & H).
    inversion H. simpl. f_equal. auto.
Qed.

Lemma forallb_ext_in {A} (f g : A -> bool) l :
  (forall x, In x l -> f x = g x) -> forallb f l = forallb g l.
Proof.
  induction l as [|x tl IH]; simpl; intros H; [reflexivity|].
  rewrite H by auto. rewrite IH by auto. reflexivity.
Qed.

Lemma forallb_below m n : forall a,
  forallb (fun i => (i <? m)%nat) (seq a n)
  = ((n =? 0)%nat || (a + n <=? m)%nat).
Proof.
  induction n as [|n IH]; intros a; simpl; [reflexivity|].
  rewrite IH.
  destruct (Nat.ltb_spec a m), (Nat.eqb_spec n 0),
    (Nat.leb_spec (S a + n) m), (Nat.leb_spec (a + S n) m);
    simpl; try reflexivity; lia.
Qed.

Lemma is_ok_getitem {A} (l : list A) i :
  is_ok (Py.getitem l i) = (i <? List.length l)%nat.
Proof.
  unfold Py.getitem. destruct (nth_error l i) eqn:H.
  - symmetry. apply Nat.ltb_lt. apply nth_error_Some. congruence.
  - symmetry. apply Nat.ltb_ge. apply nth_error_None. assumption.
Qed.

(** The pairing of starts and sizes succeeds when every start has a size. *)
Lemma is_ok_pairing (starts sizes : list Z) :
  is_ok (mapM (fun i => st <- Py.getitem starts i ;;
                        sz <- Py.getitem sizes i ;;
                        Ok (st, st + sz))
              (seq 0 (List.length starts)))
  = (List.length starts <=? List.length sizes)%nat.
Proof.
  rewrite is_ok_mapM.
  rewrite (forallb_ext_in _ (fun i => (i <? List.length sizes)%nat)).
  - rewrite forallb_below. simpl.
    destruct (Nat.eqb_spec (List.length starts) 0),
      (Nat.leb_spec (List.length starts) (List.length sizes));
      simpl; try reflexivity; lia.
  - intros i Hi. apply in_seq in Hi.
    pose proof (is_ok_getitem starts i) as Hs.
    pose proof (is_ok_getitem sizes i) as Hz.
    destruct (Py.getitem starts i); simpl in *.
    + destruct (Py.getitem sizes i); simpl in *; assumption.
    + symmetry in Hs. apply Nat.ltb_ge in Hs. lia.
Qed.

Lemma is_ok_raw_exons cstart bt :
  is_ok (raw_exons cstart bt)
  = forallb is_int (entries (BedTuple.blockStarts bt))
    && forallb is_int (entries (BedTuple.blockSizes bt))
    && (List.length (entries (BedTuple.blockStarts bt))
        <=? List.length (entries (BedTuple.blockSizes bt)))%nat.
Proof.
  unfold raw_exons.
  pose proof (is_ok_mapM (fun s => v <- int_or_raise s ;; Ok (cstart + v))
                (entries (BedTuple.blockStarts bt))) as Hs.
  rewrite (forallb_ext_in _ is_int) in Hs.
  2:{ intros s _. rewrite <- is_ok_int_or_raise.
      destruct (int_or_raise s); reflexivity. }
  pose proof (mapM_length (fun s => v <- int_or_raise s ;; Ok (cstart + v))
                (entries (BedTuple.blockStarts bt))) as Hls.
  destruct (mapM (fun s => v <- int_or_raise s ;; Ok (cstart + v))
              (entries (BedTuple.blockStarts bt))) as [starts|e];
    simpl in Hs; rewrite <- Hs; simpl; [|reflexivity].
  pose proof (is_ok_mapM int_or_raise (entries (BedTuple.blockSizes bt))) as Hz.
  rewrite (forallb_ext_in _ is_int) in Hz
    by (intros; apply is_ok_int_or_raise).
  pose proof (mapM_length int_or_raise (entries (BedTuple.blockSizes bt))) as Hlz.
  destruct (mapM int_or_raise (entries (BedTuple.blockSizes bt))) as [sizes|e];
    simpl in Hz; rewrite <- Hz; simpl; [|reflexivity].
  rewrite is_ok_pairing, (Hls starts eq_refl), (Hlz sizes eq_refl). reflexivity.
Qed.

Lemma is_ok_filter_utr bt ex :
  is_ok (_filter_utr bt ex)
  = is_int (BedTuple.thickStart bt) && is_int (BedTuple.thickEnd bt).
Proof.
  unfold _filter_utr. rewrite <- !is_ok_int_or_raise.
  destruct (int_or_raise (BedTuple.thickStart bt)) as [cs|]; simpl; [|reflexivity].
  destruct (int_or_raise (BedTuple.thickEnd bt)) as [ce|]; simpl; [|reflexivity].
  destruct (ce - cs <? 3); reflexivity.
Qed.

Lemma is_ok_init_fields l : is_ok (init_fields l) = record_ok l.
Proof.
  unfold init_fields, record_ok. rewrite of_fields_spec.
  destruct (12 <=? List.length l)%nat; simpl; [|reflexivity].
  unfold init_tuple. simpl BedTuple.chromStart.
  rewrite <- is_ok_int_or_raise.
  destruct (int_or_raise (field 1 l)) as [cstart|]; simpl; [|reflexivity].
  match goal with
  | |- context [raw_exons cstart ?bt] =>
      pose proof (is_ok_raw_exons cstart bt) as Hraw;
      pose proof (fun ex => is_ok_filter_utr bt ex) as Hf;
      destruct (raw_exons cstart bt) as [raw|]
  end; simpl in Hraw, Hf |- *; rewrite <- Hraw; simpl; [|reflexivity].
  rewrite <- (Hf raw).
  match goal with
  | |- context [_filter_utr ?bt raw] => destruct (_filter_utr bt raw)
  end; reflexivity.
Qed.

(** C5, as the code has it.  The constructor raises exactly when the argument
    is neither a string nor a list, or has fewer than twelve fields, or
    [chromStart], [thickStart], [thickEnd] or an entry of [blockStarts] or
    [blockSizes] is not an integer literal, or [blockSizes] has fewer entries
    than [blockStarts].  Fields after the twelfth are ignored. *)
Theorem constructor_succeeds_iff_record_ok :
  forall line : py_line,
    is_ok (BedLine_init line)
    = match fields_of line with
      | Some l => record_ok l
      | None => false
      end.
Proof.
  intros [s|l|]; simpl; try apply is_ok_init_fields. reflexivity.
Qed.

(** C5 as worded fails both ways: a record of thirteen fields is accepted,
    and a record of twelve fields with integers in every numeric field is
    rejected when a block start has no block size. *)
Lemma field_count_is_not_the_criterion :
  (fails_as_described (PyList thirteen_fields)
   /\ is_ok (BedLine_init (PyList thirteen_fields)) = true)
  /\ (~ fails_as_described (PyList missing_size)
      /\ BedLine_init (PyList missing_size) = Raise IndexError)
  /\ ~ (forall line : py_line,
           is_ok (BedLine_init line) = false <-> fails_as_described line).
Proof.
  assert (H13 : fails_as_described (PyList thirteen_fields)).
  { left. simpl. discriminate. }
  assert (Hok : is_ok (BedLine_init (PyList thirteen_fields)) = true)
    by (vm_compute; reflexivity).
  split; [split; assumption|]. split.
  - split; [|vm_compute; reflexivity].
    intros [H|[H|[H|[H|[H|H]]]]]; vm_compute in H; congruence.
  - intros Hall. apply Hall in H13. rewrite Hok in H13. discriminate.
Qed.

(** ** The block count *)

Lemma update_length n v : forall l, List.length (update n v l) = List.length l.
Proof.
  induction n as [|n IH]; intros [|x tl]; simpl; auto.
Qed.

Lemma field_update_other k n v : forall l,
  k <> n -> field k (update n v l) = field k l.
Proof.
  unfold field. revert k.
  induction n as [|n IH]; intros k [|x tl] Hne; simpl; try reflexivity.
  - destruct k; [contradiction|reflexivity].
  - destruct k; [reflexivity|]. simpl. apply IH. congruence.
Qed.

(** Nothing after the construction of the tuple reads [blockCount]. *)
Lemma init_tuple_ignores_blockCount f0 f1 f2 f3 f4 f5 f6 f7 f8 f9 f9' f10 f11 :
  result_map derived
    (init_tuple (BedTuple.make f0 f1 f2 f3 f4 f5 f6 f7 f8 f9' f10 f11))
  = result_map derived
      (init_tuple (BedTuple.make f0 f1 f2 f3 f4 f5 f6 f7 f8 f9 f10 f11)).
Proof.
  unfold init_tuple, raw_exons, _filter_utr.
  cbn [BedTuple.chromStart BedTuple.blockStarts BedTuple.blockSizes
       BedTuple.thickStart BedTuple.thickEnd BedTuple.name BedTuple.chrom
       BedTuple.strand].
  destruct (int_or_raise f1) as [cstart|]; [|reflexivity].
  cbn [bind].
  destruct (mapM (fun s => v <- int_or_raise s ;; Ok (cstart + v)) (entries f11))
    as [starts|]; [|reflexivity].
  cbn [bind].
  destruct (mapM int_or_raise (entries f10)) as [sizes|]; [|reflexivity].
  cbn [bind].
  destruct (mapM (fun i => st <- Py.getitem starts i ;;
                           sz <- Py.getitem sizes i ;; Ok (st, st + sz))
              (seq 0 (List.length starts))) as [raw|]; [|reflexivity].
  cbn [bind].
  destruct (int_or_raise f6) as [cs|]; [|reflexivity].
  cbn [bind].
  destruct (int_or_raise f7) as [ce|]; [|reflexivity].
  cbn [bind].
  destruct (ce - cs <? 3); reflexivity.
Qed.

Ltac other_fields v l :=
  rewrite ?(field_update_other 0 9 v l), ?(field_update_other 1 9 v l),
    ?(field_update_other 2 9 v l), ?(field_update_other 3 9 v l),
    ?(field_update_other 4 9 v l), ?(field_update_other 5 9 v l),
    ?(field_update_other 6 9 v l), ?(field_update_other 7 9 v l),
    ?(field_update_other 8 9 v l), ?(field_update_other 10 9 v l),
    ?(field_update_other 11 9 v l) by discriminate.

Lemma init_fields_ignores_blockCount v l :
  result_map derived (init_fields (update 9 v l))
  = result_map derived (init_fields l).
Proof.
  unfold init_fields. rewrite !of_fields_spec, update_length.
  destruct (12 <=? List.length l)%nat; [|reflexivity].
  cbn [bind]. other_fields v l.
  apply init_tuple_ignores_blockCount.
Qed.

Lemma raw_exons_ignores_blockCount cstart f0 f1 f2 f3 f4 f5 f6 f7 f8 f9 f9' f10 f11 :
  raw_exons cstart (BedTuple.make f0 f1 f2 f3 f4 f5 f6 f7 f8 f9' f10 f11)
  = raw_exons cstart (BedTuple.make f0 f1 f2 f3 f4 f5 f6 f7 f8 f9 f10 f11).
Proof. reflexivity. Qed.

(** One raw exon per entry of [blockStarts]. *)
Lemma raw_exons_length cstart bt raw :
  raw_exons cstart bt = Ok raw ->
  List.length raw = List.length (entries (BedTuple.blockStarts bt)).
Proof.
  unfold raw_exons. intros H.
  apply bind_ok in H as (starts & Hs & H).
  apply bind_ok in H as (sizes & Hz & H).
  apply mapM_length in H. apply mapM_length in Hs.
  rewrite H, length_seq. exact Hs.
Qed.

Lemma scan_ext (a b : BedLine) strand0 coord l : forall i pos,
  exon_lens a = exon_lens b -> num_exons a = num_exons b ->
  cds_len a = cds_len b -> five_ss_len a = five_ss_len b ->
  scan a strand0 coord i l pos = scan b strand0 coord i l pos.
Proof.
  intros i pos Hl Hn Hc Hs. revert i pos.
  induction l as [|e tl IH]; intros i pos; simpl; [reflexivity|].
  unfold scan_exon. rewrite Hl, Hn, Hc, Hs.
  repeat match goal with
         | |- context [if ?c then _ else _] => destruct c
         end; rewrite ?IH; reflexivity.
Qed.

(** [query_position] reads the derived attributes only. *)
Lemma query_position_derived (a b : BedLine) :
  derived a = derived b ->
  forall strand0 chr coord,
    query_position a strand0 chr coord = query_position b strand0 chr coord.
Proof.
  unfold derived. intros H strand0 chr coord.
  inversion H as [[Hg Hchr Hcs Hst Hex Hl Hn Hc Hs]].
  unfold query_position, query_position_run. rewrite Hchr, Hex.
  destruct (negb (chr =? chrom b)%string); [reflexivity|].
  rewrite (scan_ext a b) by assumption. reflexivity.
Qed.

(** C10. [blockCount] is not read once the record is split: two records that
    differ in that field alone raise the same exception or give objects with
    the same attributes (but for the stored raw tuple) and the same answer to
    every query, whatever the two block counts are; the number of raw exons
    is the number of entries of [blockStarts]. *)
Theorem blockCount_is_never_used :
  forall (line line' : py_line) (l : list string) (v : string),
    fields_of line = Some l ->
    fields_of line' = Some (update 9 v l) ->
    result_map derived (BedLine_init line')
    = result_map derived (BedLine_init line)
    /\ forall self self' : BedLine,
         BedLine_init line = Ok self ->
         BedLine_init line' = Ok self' ->
         (forall (strand0 chr : string) (genome_coord : Z),
             query_position self' strand0 chr genome_coord
             = query_position self strand0 chr genome_coord)
         /\ exists raw : list (Z * Z),
              raw_exons (chrom_start self) (bed_tuple self) = Ok raw
              /\ raw_exons (chrom_start self') (bed_tuple self') = Ok raw
              /\ List.length raw
                 = List.length (entries (BedTuple.blockStarts (bed_tuple self))).
Proof.
  intros line line' l v Hl Hl'.
  assert (Hsame : result_map derived (BedLine_init line')
                  = result_map derived (BedLine_init line)).
  { destruct line as [s|fs|]; simpl in Hl; inversion Hl; subst l;
      destruct line' as [s'|fs'|]; simpl in Hl'; inversion Hl' as [Heq];
      simpl; rewrite ?Heq; apply init_fields_ignores_blockCount. }
  split; [exact Hsame|].
  intros self self' Hinit Hinit'.
  rewrite Hinit, Hinit' in Hsame. simpl in Hsame.
  assert (Hd : derived self' = derived self) by congruence.
  split; [apply query_position_derived; exact Hd|].
  apply BedLine_init_ok in Hinit as (l0 & Hl0 & Hinit).
  apply BedLine_init_ok in Hinit' as (l1 & Hl1 & Hinit').
  assert (l0 = l) by congruence. assert (l1 = update 9 v l) by congruence.
  subst l0 l1. clear Hl0 Hl1.
  apply init_fields_ok in Hinit
    as (bt & cs & ce & raw & Hbt & Hbt2 & _ & Hraw & _).
  apply init_fields_ok in Hinit'
    as (bt' & cs' & ce' & raw' & Hbt' & Hbt2' & _ & Hraw' & _).
  exists raw. rewrite Hbt2, Hbt2'.
  split; [exact Hraw|]. split; [|exact (raw_exons_length _ _ _ Hraw)].
  rewrite <- Hraw.
  assert (Hcs : chrom_start self' = chrom_start self).
  { unfold derived in Hd. congruence. }
  rewrite Hcs.
  rewrite of_fields_spec in Hbt, Hbt'. rewrite update_length in Hbt'.
  destruct (12 <=? List.length l)%nat; [|discriminate].
  apply ok_inj in Hbt, Hbt'. subst bt bt'. other_fields v l.
  apply raw_exons_ignores_blockCount.
Qed.

Lemma blockCount_is_never_used_witness :
  fields_of (PyList two_exon_plus) = Some two_exon_plus
  /\ fields_of (PyList wrong_block_count) = Some (update 9 "7" two_exon_plus)
  /\ BedTuple.blockCount (bed_tuple (bed_of wrong_block_count)) = "7"%string
  /\ result_map derived (BedLine_init (PyList wrong_block_count))
     = result_map derived (BedLine_init (PyList two_exon_plus))
  /\ forall (strand0 chr : string) (genome_coord : Z),
       query_position (bed_of wrong_block_count) strand0 chr genome_coord
       = query_position (bed_of two_exon_plus) strand0 chr genome_coord.
Proof.
  assert (H1 : fields_of (PyList two_exon_plus) = Some two_exon_plus)
    by reflexivity.
  assert (H2 : fields_of (PyList wrong_block_count)
               = Some (update 9 "7" two_exon_plus)) by reflexivity.
  split; [exact H1|]. split; [exact H2|]. split; [reflexivity|].
  pose proof (blockCount_is_never_used (PyList two_exon_plus)
                (PyList wrong_block_count) two_exon_plus "7"%string H1 H2)
    as [Hsame Hq].
  split; [exact Hsame|].
  assert (Ha : BedLine_init (PyList two_exon_plus) = Ok (bed_of two_exon_plus))
    by (vm_compute; reflexivity).
  assert (Hb : BedLine_init (PyList wrong_block_count)
               = Ok (bed_of wrong_block_count)) by (vm_compute; reflexivity).
  exact (proj1 (Hq _ _ Ha Hb)).
Defined.

(** * Further properties of [bed_line.py] *)

(** ** The filter as an intersection *)

(** Whether the first two tests of the loop of [_filter_utr] drop the exon. *)
Lemma filter_utr_step_clip cs ce acc s e :
  filter_utr_step cs ce acc (s, e)
  = if ((s >? ce) && (e >? ce)) || ((s <? cs) && (e <? cs)) then acc
    else acc ++ [(Z.max s cs, Z.min e ce)].
Proof.
  unfold filter_utr_step; simpl fst; simpl snd.
  rewrite ?Z.gtb_ltb, ?Z.geb_leb.
  repeat match goal with
         | |- context [?a <? ?b] => destruct (Z.ltb_spec a b)
         | |- context [?a <=? ?b] => destruct (Z.leb_spec a b)
         end; simpl; try reflexivity; try lia;
    repeat f_equal; lia.
Qed.

Lemma filter_utr_step_cases cs ce exon :
  filter_utr_step cs ce [] exon = []
  \/ filter_utr_step cs ce [] exon
     = [(Z.max (fst exon) cs, Z.min (snd exon) ce)].
Proof.
  destruct exon as [s e]. rewrite filter_utr_step_clip. simpl.
  destruct (((s >? ce) && (e >? ce)) || ((s <? cs) && (e <? cs))); auto.
Qed.

Lemma interior_filter_utr_step cs ce g exon :
  existsb (interior g) (filter_utr_step cs ce [] exon)
  = interior g exon && ((cs <=? g) && (g <? ce)).
Proof.
  destruct exon as [s e]. rewrite filter_utr_step_clip.
  unfold interior. rewrite ?Z.gtb_ltb.
  destruct (Z.ltb_spec ce s), (Z.ltb_spec ce e), (Z.ltb_spec s cs),
    (Z.ltb_spec e cs); simpl;
    repeat match goal with
           | |- context [?a <? ?b] => destruct (Z.ltb_spec a b)
           | |- context [?a <=? ?b] => destruct (Z.leb_spec a b)
           end; simpl; try reflexivity; lia.
Qed.

Lemma interior_filter_utr_loop cs ce g ex :
  existsb (interior g) (filter_utr_loop cs ce ex)
  = existsb (interior g) ex && ((cs <=? g) && (g <? ce)).
Proof.
  rewrite filter_utr_loop_flat_map.
  induction ex as [|e tl IH]; simpl; [reflexivity|].
  rewrite existsb_app, IH, interior_filter_utr_step.
  destruct (interior g e), (existsb (interior g) tl),
    ((cs <=? g) && (g <? ce)); reflexivity.
Qed.

Lemma filter_utr_ok bt ex cs ce :
  Py.int (BedTuple.thickStart bt) = Some cs ->
  Py.int (BedTuple.thickEnd bt) = Some ce ->
  _filter_utr bt ex
  = Ok (if ce - cs <? 3 then [] else filter_utr_loop cs ce ex).
Proof.
  unfold _filter_utr, int_or_raise. intros -> ->. simpl.
  destruct (ce - cs <? 3); reflexivity.
Qed.

(** X1. When the coding region has at least three bases, the filtered exons
    cover exactly the bases that lie in a raw exon and in the coding region
    [thickStart, thickEnd): nothing coding is lost and nothing untranslated
    is kept. *)
Theorem filter_utr_keeps_exactly_the_coding_bases :
  forall (bt : BedTuple.t) (ex : list (Z * Z)) (coding_start coding_end : Z),
    Py.int (BedTuple.thickStart bt) = Some coding_start ->
    Py.int (BedTuple.thickEnd bt) = Some coding_end ->
    3 <= coding_end - coding_start ->
    exists filtered_exons,
      _filter_utr bt ex = Ok filtered_exons
      /\ forall genome_coord : Z,
           existsb (interior genome_coord) filtered_exons = true
           <-> (existsb (interior genome_coord) ex = true
                /\ coding_start <= genome_coord < coding_end).
Proof.
  intros bt ex cs ce Hcs Hce Hlen.
  exists (filter_utr_loop cs ce ex). split.
  - rewrite (filter_utr_ok bt ex cs ce Hcs Hce).
    destruct (Z.ltb_spec (ce - cs) 3); [lia|reflexivity].
  - intros g. rewrite interior_filter_utr_loop, !andb_true_iff.
    rewrite Z.leb_le, Z.ltb_lt. tauto.
Qed.

Lemma filter_utr_keeps_exactly_the_coding_bases_witness :
  exists filtered_exons,
    _filter_utr (bed_tuple (bed_of touching_utr))
                [(0, 100); (100, 200); (300, 400); (400, 500)]
    = Ok filtered_exons
    /\ forall genome_coord : Z,
         existsb (interior genome_coord) filtered_exons = true
         <-> (existsb (interior genome_coord)
                      [(0, 100); (100, 200); (300, 400); (400, 500)] = true
              /\ 100 <= genome_coord < 400).
Proof.
  apply (filter_utr_keeps_exactly_the_coding_bases
           (bed_tuple (bed_of touching_utr))
           [(0, 100); (100, 200); (300, 400); (400, 500)] 100 400).
  - vm_compute. reflexivity.
  - vm_compute. reflexivity.
  - lia.
Defined.

(** ** Order and size of the filtered exons *)

Lemma sorted_disjoint_later e tl :
  sorted_disjoint (e :: tl) -> forall y, In y tl -> snd e <= fst y.
Proof.
  revert e. induction tl as [|x tl IH]; intros e H y Hy; [contradiction|].
  destruct H as (He & Hex & Htl). destruct Hy as [<-|Hy]; [exact Hex|].
  pose proof (IH x Htl y Hy). destruct Htl as (Hx & _). lia.
Qed.

Lemma sorted_disjoint_tail e tl :
  sorted_disjoint (e :: tl) -> sorted_disjoint tl.
Proof. intros (_ & _ & H). exact H. Qed.

Lemma in_filter_flat_map cs ce ex x :
  In x (flat_map (filter_utr_step cs ce []) ex) ->
  exists y, In y ex /\ x = (Z.max (fst y) cs, Z.min (snd y) ce)
            /\ filter_utr_step cs ce [] y = [x].
Proof.
  rewrite in_flat_map. intros (y & Hy & Hx). exists y.
  destruct (filter_utr_step_cases cs ce y) as [H|H]; rewrite H in Hx.
  - contradiction.
  - destruct Hx as [<-|[]]. auto.
Qed.

Lemma filter_step_bounds cs ce y x :
  cs <= ce -> fst y <= snd y ->
  filter_utr_step cs ce [] y = [x] ->
  cs <= fst x /\ fst x <= snd x /\ snd x <= ce
  /\ fst y <= fst x /\ snd x <= snd y.
Proof.
  destruct y as [s e]. rewrite filter_utr_step_clip. simpl.
  rewrite ?Z.gtb_ltb. intros Hc Hy.
  destruct (Z.ltb_spec ce s), (Z.ltb_spec ce e), (Z.ltb_spec s cs),
    (Z.ltb_spec e cs); simpl; intros Hstep; try discriminate;
    injection Hstep as <-; simpl; lia.
Qed.

Lemma filter_sorted_disjoint cs ce ex :
  cs <= ce -> sorted_disjoint ex ->
  sorted_disjoint (flat_map (filter_utr_step cs ce []) ex).
Proof.
  intros Hc. induction ex as [|e tl IH]; intros Hs; [exact I|].
  simpl flat_map.
  pose proof (IH (sorted_disjoint_tail _ _ Hs)) as Htl.
  destruct (filter_utr_step_cases cs ce e) as [H|H]; rewrite H; [exact Htl|].
  assert (He : fst e <= snd e) by apply Hs.
  destruct (filter_step_bounds cs ce e _ Hc He H) as (B1 & B2 & B3 & B4 & B5).
  simpl app. split; [exact B2|]. split; [|exact Htl].
  destruct (flat_map (filter_utr_step cs ce []) tl) as [|x rest] eqn:Hfm;
    [exact I|].
  assert (Hin : In x (flat_map (filter_utr_step cs ce []) tl))
    by (rewrite Hfm; left; reflexivity).
  apply in_filter_flat_map in Hin as (y & Hy & Hx & _).
  pose proof (sorted_disjoint_later e tl Hs y Hy) as Hlater.
  subst x. simpl in *. lia.
Qed.

(** The lengths of disjoint ordered intervals inside [lo, hi] add up to at
    most [hi - lo]. *)
Lemma sum_lens_sorted_bound (l : list (Z * Z)) : forall lo hi,
  lo <= hi -> sorted_disjoint l ->
  (forall e, In e l -> lo <= fst e /\ snd e <= hi) ->
  0 <= Py.sum (map (fun e => snd e - fst e) l) <= hi - lo.
Proof.
  induction l as [|e tl IH]; intros lo hi Hlh Hs Hin; simpl.
  - change (Py.sum []) with 0. lia.
  - rewrite sum_cons.
    destruct Hs as (He & Hnext & Htl).
    pose proof (Hin e (or_introl eq_refl)) as (Hlo & Hhi).
    assert (Hin' : forall y, In y tl -> snd e <= fst y /\ snd y <= hi).
    { intros y Hy. split.
      - apply (sorted_disjoint_later e tl); [repeat split; assumption|exact Hy].
      - apply Hin. right. exact Hy. }
    pose proof (IH (snd e) hi Hhi Htl Hin'). lia.
Qed.

Lemma flat_map_length_le {A B} (f : A -> list B) l :
  (forall x, (List.length (f x) <= 1)%nat) ->
  (List.length (flat_map f l) <= List.length l)%nat.
Proof.
  intros Hf. induction l as [|x tl IH]; simpl; [lia|].
  rewrite length_app. specialize (Hf x). lia.
Qed.

(** X2. For a record that parses, with raw blocks in order and disjoint: the
    coding exons are again in order and disjoint, each one lies inside the
    coding region, there are no more of them than raw blocks, and [cds_len]
    is at least 0 and at most [thickEnd - thickStart] (0 when that is
    negative). *)
Theorem coding_exons_ordered_within_coding_region :
  forall (line : py_line) (self : BedLine) (raw : list (Z * Z))
         (coding_start coding_end : Z),
    BedLine_init line = Ok self ->
    raw_exons (chrom_start self) (bed_tuple self) = Ok raw ->
    Py.int (BedTuple.thickStart (bed_tuple self)) = Some coding_start ->
    Py.int (BedTuple.thickEnd (bed_tuple self)) = Some coding_end ->
    sorted_disjoint raw ->
    sorted_disjoint (get_exons self)
    /\ (forall e, In e (get_exons self) ->
                  coding_start <= fst e /\ snd e <= coding_end)
    /\ get_num_exons self <= Z.of_nat (List.length raw)
    /\ 0 <= cds_len self <= Z.max 0 (coding_end - coding_start).
Proof.
  intros line self raw cs ce Hinit Hraw Hcs Hce Hsorted.
  apply BedLine_init_ok in Hinit as (l & _ & Hinit).
  apply init_fields_ok in Hinit
    as (bt & cs' & ce' & raw' & _ & Hbt & _ & Hraw' & Hcs' & Hce' & Hex
        & (Hlens & Hnum & Hcds & _)).
  subst bt. rewrite Hraw in Hraw'. apply ok_inj in Hraw'. subst raw'.
  rewrite Hcs in Hcs'. rewrite Hce in Hce'.
  apply some_inj in Hcs', Hce'. subst cs' ce'.
  unfold get_exons, get_num_exons. rewrite Hcds, Hlens, Hnum, Hex.
  destruct (Z.ltb_spec (ce - cs) 3) as [Hshort|Hlong].
  - simpl. change (Py.sum []) with 0. repeat split; try contradiction; lia.
  - rewrite filter_utr_loop_flat_map.
    assert (Hc : cs <= ce) by lia.
    pose proof (filter_sorted_disjoint cs ce raw Hc Hsorted) as Hout.
    assert (Hin : forall e, In e (flat_map (filter_utr_step cs ce []) raw) ->
                            cs <= fst e /\ snd e <= ce).
    { intros e He. apply in_filter_flat_map in He as (y & Hy & _ & Hstep).
      assert (Hy' : fst y <= snd y).
      { clear - Hsorted Hy. induction raw as [|r tl IH]; [contradiction|].
        destruct Hy as [<-|Hy]; [apply Hsorted|].
        apply IH; [apply Hsorted|exact Hy]. }
      pose proof (filter_step_bounds cs ce y e Hc Hy' Hstep). lia. }
    split; [exact Hout|]. split; [exact Hin|]. split.
    + apply inj_le. apply flat_map_length_le. intros x.
      destruct (filter_utr_step_cases cs ce x) as [H|H]; rewrite H; simpl; lia.
    + pose proof (sum_lens_sorted_bound _ cs ce Hc Hout Hin). lia.
Qed.

Lemma coding_exons_ordered_within_coding_region_witness :
  BedLine_init (PyList touching_utr) = Ok (bed_of touching_utr)
  /\ sorted_disjoint [(0, 100); (100, 200); (300, 400); (400, 500)]
  /\ sorted_disjoint (get_exons (bed_of touching_utr))
  /\ get_num_exons (bed_of touching_utr) <= 4
  /\ 0 <= cds_len (bed_of touching_utr) <= Z.max 0 (400 - 100).
Proof.
  assert (H1 : BedLine_init (PyList touching_utr) = Ok (bed_of touching_utr))
    by (vm_compute; reflexivity).
  assert (H2 : raw_exons (chrom_start (bed_of touching_utr))
                 (bed_tuple (bed_of touching_utr))
               = Ok [(0, 100); (100, 200); (300, 400); (400, 500)])
    by (vm_compute; reflexivity).
  assert (H3 : Py.int (BedTuple.thickStart (bed_tuple (bed_of touching_utr)))
               = Some 100) by (vm_compute; reflexivity).
  assert (H4 : Py.int (BedTuple.thickEnd (bed_tuple (bed_of touching_utr)))
               = Some 400) by (vm_compute; reflexivity).
  assert (H5 : sorted_disjoint [(0, 100); (100, 200); (300, 400); (400, 500)])
    by (simpl; lia).
  split; [exact H1|]. split; [exact H5|].
  pose proof (coding_exons_ordered_within_coding_region
                (PyList touching_utr) (bed_of touching_utr) _ 100 400
                H1 H2 H3 H4 H5) as (Ha & _ & Hc & Hd).
  split; [exact Ha|]. split; [exact Hc|exact Hd].
Defined.

(** ** Coding positions *)

Lemma ascending_later e tl :
  ascending (e :: tl) -> forall y, In y tl -> snd e <= fst y.
Proof.
  revert e. induction tl as [|x tl IH]; intros e H y Hy; [contradiction|].
  destruct H as (He & Hex & Htl). destruct Hy as [<-|Hy]; [exact Hex|].
  pose proof (IH x Htl y Hy). destruct Htl as (Hx & _). lia.
Qed.

Lemma ascending_nonneg l :
  ascending l -> forall e, In e l -> fst e <= snd e.
Proof.
  induction l as [|x tl IH]; intros H e He; [contradiction|].
  destruct H as (Hx & _ & Htl). destruct He as [<-|He]; [lia|auto].
Qed.

Lemma first_interior_in g l i j x :
  first_interior g i l = Some (j, x) ->
  In x l /\ fst x <= g < snd x /\ (i <= j)%nat.
Proof.
  intros H. apply first_interior_bounds in H as (Hle & Hint & Hnth).
  apply nth_error_In in Hnth. unfold interior in Hint.
  apply andb_prop in Hint as [H1 H2].
  apply Z.leb_le in H1. apply Z.ltb_lt in H2. auto.
Qed.

Lemma first_interior_found g l i :
  existsb (interior g) l = true ->
  exists j x, first_interior g i l = Some (j, x).
Proof.
  intros H. destruct (first_interior g i l) as [[j x]|] eqn:Hfi; [eauto|].
  rewrite first_interior_none in Hfi.
  apply existsb_exists in H as (x & Hx & Hint).
  rewrite Hfi in Hint by assumption. discriminate.
Qed.

Lemma first_interior_missing g l i :
  existsb (interior g) l = false -> first_interior g i l = None.
Proof.
  intros H. apply first_interior_none. intros x Hx.
  destruct (interior g x) eqn:Hint; [|reflexivity].
  assert (existsb (interior g) l = true)
    by (apply existsb_exists; eauto).
  congruence.
Qed.

(** Along ascending exons a larger coordinate gets a larger position. *)
Lemma interior_positions_increase g1 g2 l : forall i j1 j2 x1 x2,
  ascending l ->
  first_interior g1 i l = Some (j1, x1) ->
  first_interior g2 i l = Some (j2, x2) ->
  g1 < g2 ->
  Py.sum (firstn (j1 - i) (map (fun e => snd e - fst e) l)) + (g1 - fst x1)
  < Py.sum (firstn (j2 - i) (map (fun e => snd e - fst e) l)) + (g2 - fst x2).
Proof.
  induction l as [|e tl IH]; intros i j1 j2 x1 x2 Hasc H1 H2 Hlt;
    [discriminate|].
  pose proof (ascending_later e tl Hasc) as Hlater.
  destruct Hasc as (He & _ & Htl).
  simpl in H1, H2.
  unfold interior in H1, H2.
  destruct (Z.leb_spec (fst e) g1), (Z.ltb_spec g1 (snd e)),
    (Z.leb_spec (fst e) g2), (Z.ltb_spec g2 (snd e)); simpl in H1, H2;
    try (apply some_inj in H1; injection H1 as <- <-);
    try (apply some_inj in H2; injection H2 as <- <-);
    rewrite ?Nat.sub_diag; simpl firstn; change (Py.sum []) with 0;
    try lia;
    repeat match goal with
    | H : first_interior ?g (S i) tl = Some (?j, ?x) |- _ =>
        let Hin := fresh "Hin" in
        let Hr := fresh "Hr" in
        pose proof (first_interior_in _ _ _ _ _ H) as (Hin & ? & ?);
        pose proof (interior_position_range g tl (S i) j x
                      (ascending_nonneg tl Htl) H) as Hr;
        apply Hlater in Hin;
        replace (j - i)%nat with (S (j - S i)) by lia;
        simpl map; simpl firstn; rewrite ?sum_cons;
        revert H
    end; intros; try lia.
  all: pose proof (IH (S i) j1 j2 x1 x2 Htl ltac:(assumption)
                      ltac:(assumption) Hlt); lia.
Qed.

(** Every position below the total length is the position of a coordinate. *)
Lemma interior_position_reached l : forall i p,
  ascending l ->
  0 <= p < Py.sum (map (fun e => snd e - fst e) l) ->
  exists g j x,
    first_interior g i l = Some (j, x)
    /\ Py.sum (firstn (j - i) (map (fun e => snd e - fst e) l))
       + (g - fst x) = p.
Proof.
  induction l as [|e tl IH]; intros i p Hasc Hp.
  - simpl in Hp. change (Py.sum []) with 0 in Hp. lia.
  - pose proof (ascending_later e tl Hasc) as Hlater.
    destruct Hasc as (He & _ & Htl).
    simpl map in Hp. rewrite sum_cons in Hp.
    destruct (Z.lt_ge_cases p (snd e - fst e)) as [Hin|Hout].
    + exists (fst e + p), i, e. simpl. unfold interior.
      destruct (Z.leb_spec (fst e) (fst e + p)); [|lia].
      destruct (Z.ltb_spec (fst e + p) (snd e)); [|lia].
      simpl. rewrite Nat.sub_diag. simpl. change (Py.sum []) with 0.
      split; [reflexivity|lia].
    + destruct (IH (S i) (p - (snd e - fst e)) Htl ltac:(lia))
        as (g & j & x & Hfi & Hpos).
      pose proof (first_interior_in _ _ _ _ _ Hfi) as (Hx & Hg & Hj).
      apply Hlater in Hx.
      exists g, j, x. simpl. unfold interior.
      destruct (Z.ltb_spec g (snd e)); [lia|].
      rewrite andb_false_r. split; [exact Hfi|].
      replace (j - i)%nat with (S (j - S i)) by lia.
      simpl. rewrite sum_cons. lia.
Qed.

Lemma coding_positions_increase_aux self g1 g2 :
  coding_model self ->
  ascending (exons self) ->
  existsb (interior g1) (exons self) = true ->
  existsb (interior g2) (exons self) = true ->
  g1 < g2 ->
  exists p1 p2,
    (forall s, query_position self s (chrom self) g1 = Some p1)
    /\ (forall s, query_position self s (chrom self) g2 = Some p2)
    /\ 0 <= p1 < p2 /\ p2 < cds_len self.
Proof.
  intros (Hlens & Hnum & Hcds & Hss) Hasc H1 H2 Hlt.
  destruct (first_interior_found g1 _ 0%nat H1) as (j1 & x1 & F1).
  destruct (first_interior_found g2 _ 0%nat H2) as (j2 & x2 & F2).
  pose proof (interior_positions_increase g1 g2 _ _ _ _ _ _ Hasc F1 F2 Hlt) as Hinc.
  pose proof (interior_position_range g1 _ _ _ _ (ascending_nonneg _ Hasc) F1) as R1.
  pose proof (interior_position_range g2 _ _ _ _ (ascending_nonneg _ Hasc) F2) as R2.
  rewrite !Nat.sub_0_r in *.
  eexists. eexists. split; [|split].
  - intros s. rewrite query_position_closed_form, String.eqb_refl, F1. reflexivity.
  - intros s. rewrite query_position_closed_form, String.eqb_refl, F2. reflexivity.
  - rewrite Hcds, Hlens. lia.
Qed.

(** X3. For coding exons of positive length, in order and disjoint, the
    positions of coding bases follow the genome order: of two coordinates
    inside coding exons, the larger one gets the larger position, whatever
    the strand arguments.  In particular two coding bases never share a
    position. *)
Theorem coding_positions_strictly_increase :
  forall (self : BedLine) (s1 s2 : string) (g1 g2 : Z),
    coding_model self ->
    ascending (exons self) ->
    existsb (interior g1) (exons self) = true ->
    existsb (interior g2) (exons self) = true ->
    g1 < g2 ->
    exists p1 p2,
      query_position self s1 (chrom self) g1 = Some p1
      /\ query_position self s2 (chrom self) g2 = Some p2
      /\ 0 <= p1 < p2 /\ p2 < cds_len self.
Proof.
  intros self s1 s2 g1 g2 (Hlens & Hnum & Hcds & Hss) Hasc H1 H2 Hlt.
  destruct (first_interior_found g1 _ 0%nat H1) as (j1 & x1 & F1).
  destruct (first_interior_found g2 _ 0%nat H2) as (j2 & x2 & F2).
  rewrite !query_position_closed_form, String.eqb_refl, F1, F2. simpl.
  eexists. eexists. split; [reflexivity|]. split; [reflexivity|].
  pose proof (interior_positions_increase g1 g2 _ _ _ _ _ _ Hasc F1 F2 Hlt) as Hinc.
  pose proof (interior_position_range g1 _ _ _ _ (ascending_nonneg _ Hasc) F1) as R1.
  pose proof (interior_position_range g2 _ _ _ _ (ascending_nonneg _ Hasc) F2) as R2.
  rewrite !Nat.sub_0_r in *. rewrite Hcds, Hlens. lia.
Qed.

Lemma coding_positions_strictly_increase_witness :
  coding_model (bed_of two_exon_plus)
  /\ ascending (exons (bed_of two_exon_plus))
  /\ exists p1 p2,
       query_position (bed_of two_exon_plus) "+" "chr1" 199 = Some p1
       /\ query_position (bed_of two_exon_plus) "-" "chr1" 300 = Some p2
       /\ 0 <= p1 < p2 /\ p2 < cds_len (bed_of two_exon_plus).
Proof.
  assert (H1 : coding_model (bed_of two_exon_plus))
    by (apply (BedLine_init_coding_model (PyList two_exon_plus));
        vm_compute; reflexivity).
  assert (H2 : ascending (exons (bed_of two_exon_plus)))
    by (vm_compute; repeat split; try reflexivity; discriminate).
  split; [exact H1|]. split; [exact H2|].
  apply (coding_positions_strictly_increase (bed_of two_exon_plus) "+" "-"
           199 300 H1 H2); [reflexivity|reflexivity|lia].
Defined.

(** X4. For coding exons of positive length, in order and disjoint, every
    position from 0 to [cds_len - 1] is the answer for some coordinate inside
    a coding exon, for every strand argument: the coding positions are
    exactly [0, cds_len). *)
Theorem every_coding_position_is_reached :
  forall (self : BedLine) (p : Z),
    coding_model self ->
    ascending (exons self) ->
    0 <= p < cds_len self ->
    exists genome_coord : Z,
      existsb (interior genome_coord) (exons self) = true
      /\ forall strand0 : string,
           query_position self strand0 (chrom self) genome_coord = Some p.
Proof.
  intros self p (Hlens & Hnum & Hcds & Hss) Hasc Hp.
  rewrite Hcds, Hlens in Hp.
  destruct (interior_position_reached _ 0%nat p Hasc Hp) as (g & j & x & F & E).
  exists g. split.
  - pose proof (first_interior_bounds _ _ _ _ _ F) as (_ & Hint & Hnth).
    apply existsb_exists. exists x. split; [|exact Hint].
    eapply nth_error_In. exact Hnth.
  - intros strand0.
    rewrite query_position_closed_form, String.eqb_refl, F. simpl.
    rewrite Nat.sub_0_r in E. rewrite Hlens, E. reflexivity.
Qed.

Lemma every_coding_position_is_reached_witness :
  coding_model (bed_of two_exon_plus)
  /\ ascending (exons (bed_of two_exon_plus))
  /\ 0 <= 150 < cds_len (bed_of two_exon_plus)
  /\ exists genome_coord : Z,
       existsb (interior genome_coord) (exons (bed_of two_exon_plus)) = true
       /\ forall strand0 : string,
            query_position (bed_of two_exon_plus) strand0 "chr1" genome_coord
            = Some 150.
Proof.
  assert (H1 : coding_model (bed_of two_exon_plus))
    by (apply (BedLine_init_coding_model (PyList two_exon_plus));
        vm_compute; reflexivity).
  assert (H2 : ascending (exons (bed_of two_exon_plus)))
    by (vm_compute; repeat split; try reflexivity; discriminate).
  assert (H3 : 0 <= 150 < cds_len (bed_of two_exon_plus))
    by (vm_compute; split; [discriminate|reflexivity]).
  split; [exact H1|]. split; [exact H2|]. split; [exact H3|].
  exact (every_coding_position_is_reached (bed_of two_exon_plus) 150 H1 H2 H3).
Defined.

(** ** Splice positions for strand "+" *)

Lemma candidates_in_nth self strand0 coord l : forall i c,
  In c (candidates self strand0 coord i l) ->
  exists k exon, nth_error l k = Some exon
                 /\ splice_candidate self strand0 coord (i + k) exon = Some c.
Proof.
  induction l as [|a tl IH]; intros i c H; simpl in H; [contradiction|].
  destruct (splice_candidate self strand0 coord i a) as [c'|] eqn:Hc.
  - destruct H as [<-|H].
    + exists 0%nat, a. rewrite Nat.add_0_r. simpl. split; [reflexivity|assumption].
    + apply IH in H as (k & exon & Hk & H). exists (S k), exon.
      rewrite Nat.add_succ_r. simpl. split; assumption.
  - apply IH in H as (k & exon & Hk & H). exists (S k), exon.
    rewrite Nat.add_succ_r. simpl. split; assumption.
Qed.

(** What a candidate for strand "+" is made of. *)
Lemma splice_candidate_plus_shape self coord k exon p :
  splice_candidate self "+" coord k exon = Some p ->
  interior coord exon = false
  /\ ((snd exon <= coord < snd exon + 2
       /\ Z.of_nat k <> num_exons self - 1
       /\ p = cds_len self + 2 * Z.of_nat k + (coord - snd exon))
      \/ (fst exon - 2 <= coord < fst exon
          /\ Z.of_nat k <> 0
          /\ p = cds_len self + five_ss_len self + 2 * (Z.of_nat k - 1)
                 + (coord - (fst exon - 2)))).
Proof.
  unfold splice_candidate, window_after, window_before.
  change ("+" =? "+")%string with true.
  change ("+" =? "-")%string with false.
  cbv beta iota zeta.
  destruct (interior coord exon); [discriminate|].
  destruct (Z.leb_spec (snd exon) coord), (Z.ltb_spec coord (snd exon + 2)),
    (Z.eqb_spec (Z.of_nat k) (num_exons self - 1)),
    (Z.leb_spec (fst exon - 2) coord), (Z.ltb_spec coord (fst exon)),
    (Z.eqb_spec (Z.of_nat k) 0); simpl; intros Hc; try discriminate;
    apply some_inj in Hc; split; auto; lia.
Qed.

Lemma query_plus_splice self chr coord p :
  existsb (interior coord) (exons self) = false ->
  query_position self "+" chr coord = Some p ->
  exists k exon,
    nth_error (exons self) k = Some exon
    /\ splice_candidate self "+" coord k exon = Some p.
Proof.
  intros Hno H. rewrite query_position_closed_form in H.
  destruct (negb (chr =? chrom self)%string); [discriminate|].
  rewrite (first_interior_missing _ _ _ Hno) in H.
  apply last_candidate_in, candidates_in_nth in H as (k & exon & Hk & H).
  eauto.
Qed.

(** X5. With strand "+", a query that answers from a splice window lands in
    one of two separate regions after the coding positions: the two bases
    after exon [k] (not the last) go to [cds_len + 2k] and [cds_len + 2k + 1],
    inside [cds_len, cds_len + five_ss_len); the two bases before exon [k]
    (not the first) go to [cds_len + five_ss_len + 2(k-1)] and the next one,
    inside [cds_len + five_ss_len, cds_len + 2 * five_ss_len). *)
Theorem plus_strand_splice_regions :
  forall (self : BedLine) (chr : string) (genome_coord p : Z),
    coding_model self ->
    existsb (interior genome_coord) (exons self) = false ->
    query_position self "+" chr genome_coord = Some p ->
    exists (k : nat) (exon : Z * Z),
      nth_error (exons self) k = Some exon
      /\ ((window_after genome_coord exon = true
           /\ p = cds_len self + 2 * Z.of_nat k + (genome_coord - snd exon)
           /\ cds_len self <= p < cds_len self + five_ss_len self)
          \/ (window_before genome_coord exon = true
              /\ p = cds_len self + five_ss_len self + 2 * (Z.of_nat k - 1)
                     + (genome_coord - (fst exon - 2))
              /\ cds_len self + five_ss_len self <= p
                 < cds_len self + 2 * five_ss_len self)).
Proof.
  intros self chr g p (Hlens & Hnum & Hcds & Hss) Hno H.
  apply query_plus_splice in H as (k & exon & Hk & H); [|exact Hno].
  exists k, exon. split; [exact Hk|].
  assert (Hlt : Z.of_nat k < num_exons self).
  { rewrite Hnum. apply inj_lt. apply nth_error_Some. congruence. }
  apply splice_candidate_plus_shape in H as (_ & [(Hw & Hne & Hp)|(Hw & Hne & Hp)]).
  - left. unfold window_after.
    destruct (Z.leb_spec (snd exon) g), (Z.ltb_spec g (snd exon + 2));
      try lia; simpl; repeat split; try assumption; lia.
  - right. unfold window_before.
    destruct (Z.leb_spec (fst exon - 2) g), (Z.ltb_spec g (fst exon));
      try lia; simpl; repeat split; try assumption; lia.
Qed.

Lemma plus_strand_splice_regions_witness :
  coding_model (bed_of two_exon_plus)
  /\ existsb (interior 299) (exons (bed_of two_exon_plus)) = false
  /\ query_position (bed_of two_exon_plus) "+" "chr1" 299 = Some 203
  /\ exists (k : nat) (exon : Z * Z),
       nth_error (exons (bed_of two_exon_plus)) k = Some exon
       /\ ((window_after 299 exon = true
            /\ 203 = cds_len (bed_of two_exon_plus) + 2 * Z.of_nat k
                     + (299 - snd exon)
            /\ cds_len (bed_of two_exon_plus) <= 203
               < cds_len (bed_of two_exon_plus)
                 + five_ss_len (bed_of two_exon_plus))
           \/ (window_before 299 exon = true
               /\ 203 = cds_len (bed_of two_exon_plus)
                        + five_ss_len (bed_of two_exon_plus)
                        + 2 * (Z.of_nat k - 1) + (299 - (fst exon - 2))
               /\ cds_len (bed_of two_exon_plus)
                  + five_ss_len (bed_of two_exon_plus) <= 203
                  < cds_len (bed_of two_exon_plus)
                    + 2 * five_ss_len (bed_of two_exon_plus))).
Proof.
  assert (H1 : coding_model (bed_of two_exon_plus))
    by (apply (BedLine_init_coding_model (PyList two_exon_plus));
        vm_compute; reflexivity).
  assert (H2 : existsb (interior 299) (exons (bed_of two_exon_plus)) = false)
    by (vm_compute; reflexivity).
  assert (H3 : query_position (bed_of two_exon_plus) "+" "chr1" 299 = Some 203)
    by (vm_compute; reflexivity).
  split; [exact H1|]. split; [exact H2|]. split; [exact H3|].
  exact (plus_strand_splice_regions (bed_of two_exon_plus) "chr1" 299 203
           H1 H2 H3).
Defined.

(** X6. With strand "+" and coding exons of positive length, in order and
    disjoint, [query_position] never gives one position to two coordinates:
    equal answers come from equal coordinates, be they coding bases or bases
    of splice windows. *)
Theorem plus_strand_positions_are_distinct :
  forall (self : BedLine) (chr : string) (g1 g2 p : Z),
    coding_model self ->
    ascending (exons self) ->
    query_position self "+" chr g1 = Some p ->
    query_position self "+" chr g2 = Some p ->
    g1 = g2.
Proof.
  intros self chr g1 g2 p Hcm Hasc Q1 Q2.
  pose proof Hcm as (Hlens & Hnum & Hcds & Hss).
  pose proof (plus_strand_axis self chr g1 p Hcm (ascending_nonneg _ Hasc) Q1) as A1.
  pose proof (plus_strand_axis self chr g2 p Hcm (ascending_nonneg _ Hasc) Q2) as A2.
  destruct (existsb (interior g1) (exons self)) eqn:E1;
    destruct (existsb (interior g2) (exons self)) eqn:E2.
  - (* two coding bases *)
    assert (chr = chrom self) as ->.
    { rewrite query_position_closed_form in Q1.
      destruct (String.eqb_spec chr (chrom self)); [assumption|discriminate]. }
    destruct (Z.lt_trichotomy g1 g2) as [Hlt|[Heq|Hgt]]; [|exact Heq|].
    + destruct (coding_positions_increase_aux self g1 g2 Hcm Hasc E1 E2 Hlt)
        as (p1 & p2 & F1 & F2 & Hp).
      rewrite (F1 "+"%string) in Q1. rewrite (F2 "+"%string) in Q2.
      apply some_inj in Q1, Q2. lia.
    + destruct (coding_positions_increase_aux self g2 g1 Hcm Hasc E2 E1 Hgt)
        as (p1 & p2 & F1 & F2 & Hp).
      rewrite (F1 "+"%string) in Q2. rewrite (F2 "+"%string) in Q1.
      apply some_inj in Q1, Q2. lia.
  - destruct (first_interior_found g1 _ 0%nat E1) as (j & x & F). rewrite F in A1.
    rewrite (first_interior_missing _ _ 0%nat E2) in A2. lia.
  - destruct (first_interior_found g2 _ 0%nat E2) as (j & x & F). rewrite F in A2.
    rewrite (first_interior_missing _ _ 0%nat E1) in A1. lia.
  - (* two splice bases *)
    apply query_plus_splice in Q1 as (k1 & x1 & N1 & S1); [|exact E1].
    apply query_plus_splice in Q2 as (k2 & x2 & N2 & S2); [|exact E2].
    assert (L1 : Z.of_nat k1 < num_exons self).
    { rewrite Hnum. apply inj_lt. apply nth_error_Some. congruence. }
    assert (L2 : Z.of_nat k2 < num_exons self).
    { rewrite Hnum. apply inj_lt. apply nth_error_Some. congruence. }
    apply splice_candidate_plus_shape in S1 as (_ & S1).
    apply splice_candidate_plus_shape in S2 as (_ & S2).
    destruct S1 as [(W1 & D1 & P1)|(W1 & D1 & P1)];
      destruct S2 as [(W2 & D2 & P2)|(W2 & D2 & P2)]; try lia.
    + assert (k1 = k2) by lia. subst k2.
      rewrite N1 in N2. apply some_inj in N2. subst x2. lia.
    + assert (k1 = k2) by lia. subst k2.
      rewrite N1 in N2. apply some_inj in N2. subst x2. lia.
Qed.

Lemma plus_strand_positions_are_distinct_witness :
  coding_model (bed_of two_exon_plus)
  /\ ascending (exons (bed_of two_exon_plus))
  /\ query_position (bed_of two_exon_plus) "+" "chr1" 200 = Some 200
  /\ 200 = 200.
Proof.
  assert (H1 : coding_model (bed_of two_exon_plus))
    by (apply (BedLine_init_coding_model (PyList two_exon_plus));
        vm_compute; reflexivity).
  assert (H2 : ascending (exons (bed_of two_exon_plus)))
    by (vm_compute; repeat split; try reflexivity; discriminate).
  assert (H3 : query_position (bed_of two_exon_plus) "+" "chr1" 200 = Some 200)
    by (vm_compute; reflexivity).
  split; [exact H1|]. split; [exact H2|]. split; [exact H3|].
  exact (plus_strand_positions_are_distinct (bed_of two_exon_plus) "chr1"
           200 200 200 H1 H2 H3 H3).
Defined.

(** ** Coordinates that do not resolve *)

Lemma candidates_far self strand0 g l : forall i,
  (forall e, In e l -> fst e <= snd e /\ (g < fst e - 2 \/ snd e + 2 <= g)) ->
  candidates self strand0 g i l = [].
Proof.
  induction l as [|e tl IH]; intros i H; simpl; [reflexivity|].
  destruct (H e (or_introl eq_refl)) as (He & Hfar).
  unfold splice_candidate, interior, window_after, window_before.
  destruct (Z.leb_spec (fst e) g), (Z.ltb_spec g (snd e)),
    (Z.leb_spec (snd e) g), (Z.ltb_spec g (snd e + 2)),
    (Z.leb_spec (fst e - 2) g), (Z.ltb_spec g (fst e)); simpl; try lia;
    apply IH; intros; apply H; right; assumption.
Qed.

(** X7. A coordinate more than two bases away from every coding exon (the
    exons having start <= end) resolves to nothing: [None] for every strand
    and every chromosome. *)
Theorem far_coordinate_does_not_resolve :
  forall (self : BedLine) (strand0 chr : string) (genome_coord : Z),
    (forall e, In e (exons self) ->
               fst e <= snd e
               /\ (genome_coord < fst e - 2 \/ snd e + 2 <= genome_coord)) ->
    query_position self strand0 chr genome_coord = None.
Proof.
  intros self strand0 chr g H. rewrite query_position_closed_form.
  destruct (negb (chr =? chrom self)%string); [reflexivity|].
  assert (Hno : first_interior g 0 (exons self) = None).
  { apply first_interior_none. intros e He.
    destruct (H e He) as (Hle & Hfar). unfold interior.
    destruct (Z.leb_spec (fst e) g), (Z.ltb_spec g (snd e)); simpl;
      try reflexivity; lia. }
  rewrite Hno, candidates_far by assumption. reflexivity.
Qed.

Lemma far_coordinate_does_not_resolve_witness :
  (forall e, In e (exons (bed_of two_exon_plus)) ->
             fst e <= snd e /\ (250 < fst e - 2 \/ snd e + 2 <= 250))
  /\ query_position (bed_of two_exon_plus) "+" "chr1" 250 = None.
Proof.
  assert (H : forall e, In e (exons (bed_of two_exon_plus)) ->
                        fst e <= snd e /\ (250 < fst e - 2 \/ snd e + 2 <= 250)).
  { intros e [<-|[<-|[]]]; simpl; lia. }
  split; [exact H|].
  exact (far_coordinate_does_not_resolve (bed_of two_exon_plus) "+" "chr1" 250 H).
Defined.

(** X8. A record whose single block contains the whole coding region (of at
    least three bases): the only coding exon is [thickStart, thickEnd),
    [cds_len] is [thickEnd - thickStart], and on the gene's chromosome a
    coordinate [g] of the coding region maps to [g - thickStart], every other
    coordinate to [None], for every strand argument. *)
Theorem single_block_gene_maps_by_offset :
  forall (line : py_line) (self : BedLine) (s e coding_start coding_end : Z),
    BedLine_init line = Ok self ->
    raw_exons (chrom_start self) (bed_tuple self) = Ok [(s, e)] ->
    Py.int (BedTuple.thickStart (bed_tuple self)) = Some coding_start ->
    Py.int (BedTuple.thickEnd (bed_tuple self)) = Some coding_end ->
    3 <= coding_end - coding_start ->
    s <= coding_start -> coding_end <= e ->
    get_exons self = [(coding_start, coding_end)]
    /\ cds_len self = coding_end - coding_start
    /\ forall (strand0 : string) (genome_coord : Z),
         query_position self strand0 (chrom self) genome_coord
         = if (coding_start <=? genome_coord) && (genome_coord <? coding_end)
           then Some (genome_coord - coding_start) else None.
Proof.
  intros line self s e cs ce Hinit Hraw Hcs Hce Hlen Hs He.
  apply BedLine_init_ok in Hinit as (l & _ & Hinit).
  apply init_fields_ok in Hinit
    as (bt & cs' & ce' & raw' & _ & Hbt & _ & Hraw' & Hcs' & Hce' & Hex
        & (Hlens & Hnum & Hcds & Hss)).
  subst bt. rewrite Hraw in Hraw'. apply ok_inj in Hraw'. subst raw'.
  rewrite Hcs in Hcs'. rewrite Hce in Hce'.
  apply some_inj in Hcs', Hce'. subst cs' ce'.
  destruct (Z.ltb_spec (ce - cs) 3) as [Hshort|_]; [lia|].
  rewrite filter_utr_loop_flat_map in Hex. simpl in Hex.
  rewrite (filter_exon_containing_coding_region cs ce s e Hlen Hs He) in Hex.
  simpl in Hex. unfold get_exons.
  rewrite Hex in Hlens, Hnum. simpl in Hlens, Hnum.
  rewrite Hlens in Hcds. rewrite sum_cons in Hcds.
  change (Py.sum []) with 0 in Hcds.
  split; [exact Hex|]. split; [lia|].
  intros strand0 g.
  rewrite query_position_closed_form, String.eqb_refl, Hex. simpl.
  unfold interior. simpl fst. simpl snd.
  destruct ((cs <=? g) && (g <? ce)) eqn:Hint.
  - rewrite Hlens. reflexivity.
  - unfold splice_candidate, interior. simpl fst. simpl snd.
    rewrite Hint, Hnum. simpl. rewrite !andb_false_r. reflexivity.
Qed.

Lemma single_block_gene_maps_by_offset_witness :
  BedLine_init (PyList single_block_utr) = Ok (bed_of single_block_utr)
  /\ raw_exons (chrom_start (bed_of single_block_utr))
       (bed_tuple (bed_of single_block_utr)) = Ok [(900, 2100)]
  /\ 3 <= 2000 - 1000
  /\ get_exons (bed_of single_block_utr) = [(1000, 2000)]
  /\ cds_len (bed_of single_block_utr) = 2000 - 1000
  /\ forall (strand0 : string) (genome_coord : Z),
       query_position (bed_of single_block_utr) strand0 "chr7" genome_coord
       = if (1000 <=? genome_coord) && (genome_coord <? 2000)
         then Some (genome_coord - 1000) else None.
Proof.
  assert (H1 : BedLine_init (PyList single_block_utr)
               = Ok (bed_of single_block_utr)) by (vm_compute; reflexivity).
  assert (H2 : raw_exons (chrom_start (bed_of single_block_utr))
                 (bed_tuple (bed_of single_block_utr)) = Ok [(900, 2100)])
    by (vm_compute; reflexivity).
  assert (H3 : Py.int (BedTuple.thickStart (bed_tuple (bed_of single_block_utr)))
               = Some 1000) by (vm_compute; reflexivity).
  assert (H4 : Py.int (BedTuple.thickEnd (bed_tuple (bed_of single_block_utr)))
               = Some 2000) by (vm_compute; reflexivity).
  assert (H5 : 3 <= 2000 - 1000) by lia.
  assert (H6 : 900 <= 1000) by lia.
  assert (H7 : 2000 <= 2100) by lia.
  split; [exact H1|]. split; [exact H2|]. split; [exact H5|].
  exact (single_block_gene_maps_by_offset (PyList single_block_utr)
           (bed_of single_block_utr) 900 2100 1000 2000
           H1 H2 H3 H4 H5 H6 H7).
Defined.

(** * Further properties of the parser *)

(** ** Commas around the block lists *)

Lemma rstrip_app_char c : forall t,
  Py.rstrip c (t ++ String c EmptyString)%string = Py.rstrip c t.
Proof.
  induction t as [|a r IH]; simpl.
  - rewrite Ascii.eqb_refl. reflexivity.
  - rewrite IH. reflexivity.
Qed.

Lemma strip_app_char c : forall s,
  Py.strip c (s ++ String c EmptyString)%string = Py.strip c s.
Proof.
  unfold Py.strip. induction s as [|a r IH]; simpl.
  - rewrite Ascii.eqb_refl. reflexivity.
  - destruct (Ascii.eqb a c); [exact IH|].
    apply (rstrip_app_char c (String a r)).
Qed.

Lemma strip_cons_char c s : Py.strip c (String c s) = Py.strip c s.
Proof.
  unfold Py.strip. simpl. rewrite Ascii.eqb_refl. reflexivity.
Qed.

Lemma entries_trailing_comma s : entries (s ++ ",")%string = entries s.
Proof.
  unfold entries, Py.COMMA. rewrite strip_app_char. reflexivity.
Qed.

Lemma entries_leading_comma s : entries (String Py.COMMA s) = entries s.
Proof.
  unfold entries. rewrite strip_cons_char. reflexivity.
Qed.

(** The attributes of the object depend on the block lists through their
    entries only. *)
Lemma init_tuple_entries f0 f1 f2 f3 f4 f5 f6 f7 f8 f9 f10 f11 g10 g11 :
  entries g10 = entries f10 -> entries g11 = entries f11 ->
  result_map derived
    (init_tuple (BedTuple.make f0 f1 f2 f3 f4 f5 f6 f7 f8 f9 g10 g11))
  = result_map derived
      (init_tuple (BedTuple.make f0 f1 f2 f3 f4 f5 f6 f7 f8 f9 f10 f11)).
Proof.
  intros E10 E11.
  unfold init_tuple, raw_exons, _filter_utr.
  cbn [BedTuple.chromStart BedTuple.blockStarts BedTuple.blockSizes
       BedTuple.thickStart BedTuple.thickEnd BedTuple.name BedTuple.chrom
       BedTuple.strand].
  rewrite E10, E11.
  destruct (int_or_raise f1) as [cstart|]; [|reflexivity].
  cbn [bind].
  destruct (mapM (fun s => v <- int_or_raise s ;; Ok (cstart + v)) (entries f11))
    as [starts|]; [|reflexivity].
  cbn [bind].
  destruct (mapM int_or_raise (entries f10)) as [sizes|]; [|reflexivity].
  cbn [bind].
  destruct (mapM (fun i => st <- Py.getitem starts i ;;
                           sz <- Py.getitem sizes i ;; Ok (st, st + sz))
              (seq 0 (List.length starts))) as [raw|]; [|reflexivity].
  cbn [bind].
  destruct (int_or_raise f6) as [cs|]; [|reflexivity].
  cbn [bind].
  destruct (int_or_raise f7) as [ce|]; [|reflexivity].
  cbn [bind].
  destruct (ce - cs <? 3); reflexivity.
Qed.

(** X9. A comma at the end of [blockSizes] or [blockStarts] changes nothing:
    with or without it, a record raises the same exception or gives an object
    with the same attributes (but for the stored raw tuple); the same holds
    for a comma in front. *)
Theorem commas_around_block_lists_are_ignored :
  forall (f0 f1 f2 f3 f4 f5 f6 f7 f8 f9 f10 f11 : string) (rest : list string),
    let plain := f0 :: f1 :: f2 :: f3 :: f4 :: f5 :: f6 :: f7 :: f8 :: f9
                    :: f10 :: f11 :: rest in
    let trailing := f0 :: f1 :: f2 :: f3 :: f4 :: f5 :: f6 :: f7 :: f8 :: f9
                       :: (f10 ++ ",")%string :: (f11 ++ ",")%string :: rest in
    let leading := f0 :: f1 :: f2 :: f3 :: f4 :: f5 :: f6 :: f7 :: f8 :: f9
                      :: String Py.COMMA f10 :: String Py.COMMA f11 :: rest in
    result_map derived (BedLine_init (PyList trailing))
    = result_map derived (BedLine_init (PyList plain))
    /\ result_map derived (BedLine_init (PyList leading))
       = result_map derived (BedLine_init (PyList plain)).
Proof.
  intros. subst plain trailing leading. unfold BedLine_init, init_fields.
  cbn [BedTuple.of_fields bind]. split.
  - apply init_tuple_entries; apply entries_trailing_comma.
  - apply init_tuple_entries; apply entries_leading_comma.
Qed.

(** ** A line and its fields *)

Lemma split_no_sep sep : forall x,
  has_char sep x = false -> Py.split sep x = [x].
Proof.
  induction x as [|a r IH]; simpl; intros H; [reflexivity|].
  apply orb_false_elim in H as [Ha Hr]. rewrite Ha, (IH Hr). reflexivity.
Qed.

Lemma split_app_sep sep rest : forall x,
  has_char sep x = false ->
  Py.split sep (x ++ String sep rest)%string = x :: Py.split sep rest.
Proof.
  induction x as [|a r IH]; simpl; intros H.
  - rewrite Ascii.eqb_refl. reflexivity.
  - apply orb_false_elim in H as [Ha Hr]. rewrite Ha, (IH Hr). reflexivity.
Qed.

Lemma split_concat sep : forall l,
  l <> [] ->
  forallb (fun f => negb (has_char sep f)) l = true ->
  Py.split sep (String.concat (String sep EmptyString) l) = l.
Proof.
  induction l as [|x tl IH]; intros Hne Hall; [contradiction|].
  simpl in Hall. apply andb_prop in Hall as [Hx Htl].
  apply negb_true_iff in Hx.
  destruct tl as [|y tl'].
  - simpl. apply split_no_sep. exact Hx.
  - change (String.concat (String sep EmptyString) (x :: y :: tl'))
      with (x ++ String sep (String.concat (String sep EmptyString) (y :: tl')))%string.
    rewrite (split_app_sep sep _ x Hx). f_equal.
    apply IH; [discriminate|exact Htl].
Qed.

(** X10. A line made of tab-free fields joined by tabs builds the same object
    (or raises the same exception) as the list of those fields: splitting
    the line at tabs gives the fields back. *)
Theorem tab_joined_line_parses_as_its_fields :
  forall l : list string,
    l <> [] ->
    forallb (fun f => negb (has_char Py.TAB f)) l = true ->
    fields_of (PyStr (String.concat (String Py.TAB EmptyString) l)) = Some l
    /\ BedLine_init (PyStr (String.concat (String Py.TAB EmptyString) l))
       = BedLine_init (PyList l).
Proof.
  intros l Hne Hall. simpl. rewrite (split_concat Py.TAB l Hne Hall).
  split; reflexivity.
Qed.

Lemma tab_joined_line_parses_as_its_fields_witness :
  two_exon_minus <> []
  /\ forallb (fun f => negb (has_char Py.TAB f)) two_exon_minus = true
  /\ BedLine_init (PyStr (String.concat (String Py.TAB EmptyString) two_exon_minus))
     = BedLine_init (PyList two_exon_minus).
Proof.
  assert (H1 : two_exon_minus <> []) by discriminate.
  assert (H2 : forallb (fun f => negb (has_char Py.TAB f)) two_exon_minus = true)
    by reflexivity.
  split; [exact H1|]. split; [exact H2|].
  exact (proj2 (tab_joined_line_parses_as_its_fields two_exon_minus H1 H2)).
Defined.

(** ** Which exception *)

Lemma mapM_raise {A B} (f : A -> result B) l e :
  mapM f l = Raise e -> exists x, In x l /\ f x = Raise e.
Proof.
  induction l as [|x tl IH]; simpl; intros H; [discriminate|].
  destruct (f x) as [y|e'] eqn:Hx; simpl in H.
  - destruct (mapM f tl) as [ys|e'']; simpl in H; [discriminate|].
    destruct (IH H) as (x' & Hin & Hx'). eauto.
  - inversion H; subst. eauto.
Qed.

Lemma int_or_raise_raise s e : int_or_raise s = Raise e -> e = ValueError.
Proof.
  unfold int_or_raise. destruct (Py.int s); congruence.
Qed.

Lemma is_ok_false {A} (r : result A) e : r = Raise e -> is_ok r = false.
Proof. intros ->. reflexivity. Qed.

(** How [raw_exons] fails: on a non-integer entry with [ValueError], and
    with [IndexError] only when all entries are integers and a start has no
    size. *)
Lemma raw_exons_raise cstart bt e :
  raw_exons cstart bt = Raise e ->
  (e = ValueError
   /\ forallb is_int (entries (BedTuple.blockStarts bt))
      && forallb is_int (entries (BedTuple.blockSizes bt)) = false)
  \/ (e = IndexError
      /\ forallb is_int (entries (BedTuple.blockStarts bt)) = true
      /\ forallb is_int (entries (BedTuple.blockSizes bt)) = true
      /\ (List.length (entries (BedTuple.blockSizes bt))
          < List.length (entries (BedTuple.blockStarts bt)))%nat).
Proof.
  intros H. pose proof (is_ok_false _ _ H) as Hnok.
  rewrite is_ok_raw_exons in Hnok.
  unfold raw_exons in H.
  destruct (mapM (fun s => v <- int_or_raise s ;; Ok (cstart + v))
              (entries (BedTuple.blockStarts bt))) as [starts|e1] eqn:Hs;
    simpl in H.
  - destruct (mapM int_or_raise (entries (BedTuple.blockSizes bt)))
      as [sizes|e2] eqn:Hz; simpl in H.
    + right.
      apply mapM_raise in H as (i & _ & Hi).
      assert (e = IndexError) as ->.
      { unfold Py.getitem in Hi.
        destruct (nth_error starts i); simpl in Hi; [|congruence].
        destruct (nth_error sizes i); simpl in Hi; congruence. }
      assert (Fz : forallb is_int (entries (BedTuple.blockSizes bt)) = true).
      { pose proof (is_ok_mapM int_or_raise
                      (entries (BedTuple.blockSizes bt))) as C.
        rewrite Hz in C.
        rewrite (forallb_ext_in _ is_int) in C
          by (intros; apply is_ok_int_or_raise).
        symmetry. exact C. }
      assert (Fs : forallb is_int (entries (BedTuple.blockStarts bt)) = true).
      { pose proof (is_ok_mapM
                      (fun s => v <- int_or_raise s ;; Ok (cstart + v))
                      (entries (BedTuple.blockStarts bt))) as C.
        rewrite Hs in C.
        rewrite (forallb_ext_in _ is_int) in C.
        2:{ intros s _. rewrite <- is_ok_int_or_raise.
            destruct (int_or_raise s); reflexivity. }
        symmetry. exact C. }
      rewrite Fs, Fz in Hnok. simpl in Hnok.
      apply Nat.leb_gt in Hnok. auto.
    + left. inversion H; subst e2.
      pose proof (is_ok_mapM int_or_raise (entries (BedTuple.blockSizes bt))) as C.
      rewrite Hz in C.
      rewrite (forallb_ext_in _ is_int) in C
        by (intros; apply is_ok_int_or_raise).
      simpl in C. rewrite <- C, andb_false_r.
      apply mapM_raise in Hz as (x & _ & Hx).
      apply int_or_raise_raise in Hx. auto.
  - left. inversion H; subst e1.
    pose proof (is_ok_mapM (fun s => v <- int_or_raise s ;; Ok (cstart + v))
                  (entries (BedTuple.blockStarts bt))) as C.
    rewrite Hs in C.
    rewrite (forallb_ext_in _ is_int) in C.
    2:{ intros s _. rewrite <- is_ok_int_or_raise.
        destruct (int_or_raise s); reflexivity. }
    simpl in C. rewrite <- C. simpl.
    apply mapM_raise in Hs as (x & _ & Hx).
    destruct (int_or_raise x) as [v|e'] eqn:Hv; simpl in Hx; [discriminate|].
    inversion Hx; subst e'. apply int_or_raise_raise in Hv. auto.
Qed.

Lemma filter_utr_raise bt ex e : _filter_utr bt ex = Raise e -> e = ValueError.
Proof.
  unfold _filter_utr.
  destruct (int_or_raise (BedTuple.thickStart bt)) as [cs|e1] eqn:Ha; simpl.
  - destruct (int_or_raise (BedTuple.thickEnd bt)) as [ce|e2] eqn:Hb; simpl.
    + destruct (ce - cs <? 3); discriminate.
    + intros H. inversion H; subst. apply int_or_raise_raise in Hb. exact Hb.
  - intros H. inversion H; subst. apply int_or_raise_raise in Ha. exact Ha.
Qed.

(** X11. The exception tells what is wrong with the record.  [TypeError]:
    fewer than twelve fields.  [IndexError]: twelve fields or more,
    [chromStart] and all block entries integers, and fewer block sizes than
    block starts.  [ValueError]: the argument is neither a string nor a list,
    or there are twelve fields or more and one of the fields the constructor
    converts is not an integer. *)
Theorem constructor_exception_tells_the_cause :
  forall (line : py_line) (e : exn),
    BedLine_init line = Raise e ->
    match e with
    | TypeError =>
        exists l, fields_of line = Some l /\ (List.length l < 12)%nat
    | IndexError =>
        exists l, fields_of line = Some l
                  /\ (12 <= List.length l)%nat
                  /\ is_int (field 1 l) = true
                  /\ forallb is_int (entries (field 11 l)) = true
                  /\ forallb is_int (entries (field 10 l)) = true
                  /\ (List.length (entries (field 10 l))
                      < List.length (entries (field 11 l)))%nat
    | ValueError =>
        fields_of line = None
        \/ exists l, fields_of line = Some l
                     /\ (12 <= List.length l)%nat
                     /\ is_int (field 1 l)
                        && forallb is_int (entries (field 11 l))
                        && forallb is_int (entries (field 10 l))
                        && is_int (field 6 l)
                        && is_int (field 7 l) = false
    end.
Proof.
  intros line e H.
  assert (Hfields : forall l, fields_of line = Some l -> init_fields l = Raise e).
  { destruct line; simpl in *; intros l0 E; inversion E; subst; exact H. }
  destruct (fields_of line) as [l|] eqn:Hl.
  2:{ destruct line; simpl in Hl; try discriminate. simpl in H.
      inversion H. left. reflexivity. }
  specialize (Hfields l eq_refl). clear H.
  unfold init_fields in Hfields. rewrite of_fields_spec in Hfields.
  destruct (Nat.leb_spec 12 (List.length l)) as [Hlen|Hlen].
  2:{ simpl in Hfields. inversion Hfields. exists l. auto. }
  cbn [bind] in Hfields. unfold init_tuple in Hfields.
  cbn [BedTuple.chromStart] in Hfields.
  pose proof (is_ok_int_or_raise (field 1 l)) as I1.
  destruct (int_or_raise (field 1 l)) as [cstart|e1] eqn:H1; cbn [bind] in Hfields.
  2:{ inversion Hfields; subst e1. apply int_or_raise_raise in H1. subst e.
      right. exists l. simpl in I1. rewrite <- I1. auto. }
  simpl in I1.
  match type of Hfields with
  | context [raw_exons cstart ?bt] =>
      pose proof (is_ok_raw_exons cstart bt) as Iraw;
      destruct (raw_exons cstart bt) as [raw|e2] eqn:Hraw
  end; cbn [bind] in Hfields.
  2:{ inversion Hfields; subst e2.
      apply raw_exons_raise in Hraw as [(-> & Hv)|(-> & Hs & Hz & Hlt)];
        cbn [BedTuple.blockStarts BedTuple.blockSizes] in *.
      - right. exists l. split; [reflexivity|]. split; [assumption|].
        rewrite <- I1. simpl. rewrite Hv. reflexivity.
      - exists l. repeat split; auto. }
  cbn [BedTuple.blockStarts BedTuple.blockSizes] in Iraw. simpl in Iraw.
  symmetry in Iraw. apply andb_prop in Iraw as [Iraw _].
  match type of Hfields with
  | context [_filter_utr ?bt raw] =>
      pose proof (is_ok_filter_utr bt raw) as If;
      destruct (_filter_utr bt raw) as [out|e3] eqn:Hf
  end; cbn [bind] in Hfields; [discriminate|].
  inversion Hfields; subst e3.
  cbn [BedTuple.thickStart BedTuple.thickEnd] in If. simpl in If.
  apply filter_utr_raise in Hf. subst e.
  right. exists l. split; [reflexivity|]. split; [assumption|].
  rewrite <- I1. simpl. rewrite Iraw. simpl. symmetry. exact If.
Qed.

Lemma constructor_exception_tells_the_cause_witness :
  BedLine_init (PyList missing_size) = Raise IndexError
  /\ exists l, fields_of (PyList missing_size) = Some l
               /\ (12 <= List.length l)%nat
               /\ is_int (field 1 l) = true
               /\ forallb is_int (entries (field 11 l)) = true
               /\ forallb is_int (entries (field 10 l)) = true
               /\ (List.length (entries (field 10 l))
                   < List.length (entries (field 11 l)))%nat.
Proof.
  assert (H : BedLine_init (PyList missing_size) = Raise IndexError)
    by (vm_compute; reflexivity).
  split; [exact H|].
  exact (constructor_exception_tells_the_cause (PyList missing_size)
           IndexError H).
Defined.

(** ** The raw blocks *)

Lemma mapM_nth {A B} (f : A -> result B) l : forall ys i y,
  mapM f l = Ok ys -> nth_error ys i = Some y ->
  exists x, nth_error l i = Some x /\ f x = Ok y.
Proof.
  induction l as [|x tl IH]; simpl; intros ys i y H Hn.
  - apply ok_inj in H. subst ys. destruct i; discriminate.
  - apply bind_ok in H as (y0 & Hy0 & H). apply bind_ok in H as (ys' & Hys & H).
    apply ok_inj in H. subst ys. destruct i as [|i]; simpl in Hn.
    + apply some_inj in Hn. subst y0. exists x. auto.
    + apply (IH ys' i y Hys Hn).
Qed.

Lemma nth_error_seq_0 n i x : nth_error (seq 0 n) i = Some x -> x = i.
Proof.
  intros H.
  assert (Hlt : (i < List.length (seq 0 n))%nat)
    by (apply nth_error_Some; congruence).
  rewrite length_seq in Hlt.
  apply (nth_error_nth _ _ 0%nat) in H. rewrite seq_nth in H by assumption.
  simpl in H. congruence.
Qed.

(** X12. The raw exons of a record are its blocks moved to chromosome
    coordinates: there is one per entry of [blockStarts], and the one at
    index [i] starts at [chromStart] plus the [i]-th block start and is as
    long as the [i]-th block size.  Sizes beyond the number of starts are
    read but not used. *)
Theorem raw_exons_are_the_blocks :
  forall (chrom_start0 : Z) (bt : BedTuple.t) (raw : list (Z * Z)),
    raw_exons chrom_start0 bt = Ok raw ->
    List.length raw = List.length (entries (BedTuple.blockStarts bt))
    /\ forall (i : nat) (a b : Z),
         nth_error raw i = Some (a, b) ->
         exists (start_field size_field : string) (block_start block_size : Z),
           nth_error (entries (BedTuple.blockStarts bt)) i = Some start_field
           /\ Py.int start_field = Some block_start
           /\ nth_error (entries (BedTuple.blockSizes bt)) i = Some size_field
           /\ Py.int size_field = Some block_size
           /\ a = chrom_start0 + block_start
           /\ b = a + block_size.
Proof.
  intros cstart bt raw H. split; [exact (raw_exons_length _ _ _ H)|].
  intros i a b Hn. unfold raw_exons in H.
  apply bind_ok in H as (starts & Hs & H).
  apply bind_ok in H as (sizes & Hz & H).
  destruct (mapM_nth _ _ _ _ _ H Hn) as (k & Hk & Hpair).
  apply nth_error_seq_0 in Hk. subst k.
  apply bind_ok in Hpair as (st & Hst & Hpair).
  apply bind_ok in Hpair as (sz & Hsz & Hpair).
  apply ok_inj in Hpair. injection Hpair as <- <-.
  unfold Py.getitem in Hst, Hsz.
  destruct (nth_error starts i) as [st'|] eqn:Est; [|discriminate].
  destruct (nth_error sizes i) as [sz'|] eqn:Esz; [|discriminate].
  apply ok_inj in Hst, Hsz. subst st' sz'.
  destruct (mapM_nth _ _ _ _ _ Hs Est) as (sf & Hsf & Hsv).
  destruct (mapM_nth _ _ _ _ _ Hz Esz) as (zf & Hzf & Hzv).
  apply bind_ok in Hsv as (v & Hv & Hsv). apply ok_inj in Hsv.
  apply int_or_raise_ok in Hv, Hzv.
  exists sf, zf, v, sz. repeat split; auto.
Qed.

Lemma raw_exons_are_the_blocks_witness :
  raw_exons 100 (bed_tuple (bed_of two_exon_plus)) = Ok [(100, 200); (300, 400)]
  /\ List.length [(100, 200); (300, 400)]
     = List.length (entries (BedTuple.blockStarts (bed_tuple (bed_of two_exon_plus)))).
Proof.
  assert (H : raw_exons 100 (bed_tuple (bed_of two_exon_plus))
              = Ok [(100, 200); (300, 400)]) by (vm_compute; reflexivity).
  split; [exact H|].
  exact (proj1 (raw_exons_are_the_blocks 100 (bed_tuple (bed_of two_exon_plus))
                  [(100, 200); (300, 400)] H)).
Defined.

(** * Properties of the batching in [simulate_performance.py] *)

Example yield_sim_df_small :
  Sim.yield_sim_df [1; 2; 3; 4; 5] 2 = Sim.Exhausted [[1; 2]; [3; 4]; [5]].
Proof. reflexivity. Qed.

(** With no process the modulo raises on the first data frame, before
    anything is yielded; with no data frame nothing is computed at all. *)
Example yield_sim_df_no_process :
  Sim.yield_sim_df [1; 2; 3] 0 = Sim.Failed [] Sim.ZeroDivisionError
  /\ Sim.yield_sim_df (@nil Z) 0 = Sim.Exhausted [].
Proof. split; reflexivity. Qed.

Lemma yield_loop_chunks {A : Type} (n : Z) (rest : list A) :
  0 < n ->
  forall (i q : Z) (cur : list A) (yielded : list (list A)),
    0 <= q ->
    i = q * n + Z.of_nat (List.length cur) ->
    Z.of_nat (List.length cur) < n ->
    exists full tail,
      Sim.yield_loop n i rest cur yielded = Sim.Exhausted (yielded ++ full ++ tail)
      /\ (match full with
          | [] => List.concat (full ++ tail) = cur ++ rest
          | c :: _ => exists c', c = cur ++ c'
                                 /\ List.concat (full ++ tail) = cur ++ rest
          end)
      /\ Forall (fun c => Z.of_nat (List.length c) = n) full
      /\ (tail = []
          \/ exists c, tail = [c] /\ 0 < Z.of_nat (List.length c) < n).
Proof.
  intros Hn. induction rest as [|df tl IH]; intros i q cur yielded Hq Hi Hcur.
  - simpl. destruct cur as [|c0 cur'].
    + exists [], []. rewrite app_nil_r. repeat split; auto.
    + exists [], [c0 :: cur']. simpl. rewrite app_nil_r.
      repeat split; auto. right. eexists. split; [reflexivity|].
      simpl List.length in *. lia.
  - simpl. destruct (Z.eqb_spec n 0) as [|_]; [lia|].
    assert (Hlen : Z.of_nat (List.length (cur ++ [df]))
                   = Z.of_nat (List.length cur) + 1)
      by (rewrite length_app; simpl; lia).
    assert (Hi1 : i + 1 = Z.of_nat (List.length (cur ++ [df])) + q * n) by lia.
    destruct (Z.eqb_spec ((i + 1) mod n) 0) as [Hz|Hnz].
    + assert (Hfull : Z.of_nat (List.length (cur ++ [df])) = n).
      { rewrite Hi1, Z.mod_add in Hz by lia.
        destruct (Z.eq_dec (Z.of_nat (List.length (cur ++ [df]))) n) as [E|E];
          [exact E|].
        rewrite Z.mod_small in Hz by lia. lia. }
      destruct (IH (i + 1) (q + 1) [] (yielded ++ [cur ++ [df]]))
        as (full & tail & Hrun & Hcat & Hall & Htail); [lia|simpl; lia|simpl; lia|].
      exists ((cur ++ [df]) :: full), tail. split; [|split; [|split]].
      * rewrite Hrun, <- !app_assoc. reflexivity.
      * exists [df]. split; [reflexivity|].
        assert (Hc : List.concat (full ++ tail) = tl).
        { destruct full; [exact Hcat|]. destruct Hcat as (_ & _ & Hc). exact Hc. }
        simpl. rewrite Hc, <- app_assoc. reflexivity.
      * constructor; assumption.
      * exact Htail.
    + assert (Hsmall : Z.of_nat (List.length (cur ++ [df])) < n).
      { destruct (Z.eq_dec (Z.of_nat (List.length (cur ++ [df]))) n) as [E|E];
          [|lia].
        exfalso. apply Hnz. rewrite Hi1, Z.mod_add by lia.
        rewrite E. apply Z_mod_same_full. }
      destruct (IH (i + 1) q (cur ++ [df]) yielded)
        as (full & tail & Hrun & Hcat & Hall & Htail); [lia|lia|lia|].
      exists full, tail. split; [exact Hrun|]. split; [|split; assumption].
      destruct full as [|c full'].
      * rewrite Hcat, <- app_assoc. reflexivity.
      * destruct Hcat as (c' & Hc & Hcat). exists ([df] ++ c'). split.
        -- rewrite Hc, <- app_assoc. reflexivity.
        -- rewrite Hcat, <- app_assoc. reflexivity.
Qed.

(** X13. For a positive number of processes, [yield_sim_df] cuts the stream
    of data frames into consecutive lists: put end to end they are the
    stream, in order and without loss; every list holds exactly
    [num_processes] data frames, except possibly a shorter, non-empty last
    one.  No empty list is yielded. *)
Theorem yield_sim_df_cuts_into_batches :
  forall (A : Type) (dfg : list A) (num_processes : Z),
    0 < num_processes ->
    exists full tail : list (list A),
      Sim.yield_sim_df dfg num_processes = Sim.Exhausted (full ++ tail)
      /\ List.concat (full ++ tail) = dfg
      /\ Forall (fun c => Z.of_nat (List.length c) = num_processes) full
      /\ (tail = []
          \/ exists c, tail = [c]
                       /\ 0 < Z.of_nat (List.length c) < num_processes).
Proof.
  intros A dfg n Hn. unfold Sim.yield_sim_df.
  destruct (yield_loop_chunks n dfg Hn 0 0 [] [])
    as (full & tail & Hrun & Hcat & Hall & Htail); [lia|simpl; lia|simpl; lia|].
  exists full, tail. split; [exact Hrun|]. split; [|split; assumption].
  destruct full; [exact Hcat|]. destruct Hcat as (_ & _ & Hc). exact Hc.
Qed.

Lemma yield_sim_df_cuts_into_batches_witness :
  0 < 2
  /\ exists full tail : list (list Z),
       Sim.yield_sim_df [1; 2; 3; 4; 5] 2 = Sim.Exhausted (full ++ tail)
       /\ List.concat (full ++ tail) = [1; 2; 3; 4; 5]
       /\ Forall (fun c => Z.of_nat (List.length c) = 2) full
       /\ (tail = []
           \/ exists c, tail = [c] /\ 0 < Z.of_nat (List.length c) < 2).
Proof.
  assert (H : 0 < 2) by lia.
  split; [exact H|].
  exact (yield_sim_df_cuts_into_batches Z [1; 2; 3; 4; 5] 2 H).
Defined.

Example round_sizes_small :
  Sim.round_sizes 10 4 = Some [4; 4; 2]
  /\ Sim.round_sizes 8 4 = Some [4; 4]
  /\ Sim.round_sizes 0 4 = Some []
  /\ Sim.round_sizes 10 0 = None.
Proof. repeat split; reflexivity. Qed.

(** The rounds from round [k0] on, when [q] full rounds fit strictly below
    [num_iter]. *)
Lemma rounds_from (num_iter p q : Z) :
  0 < p -> p * q <= num_iter - 1 < p * q + p ->
  forall (m k0 : nat),
    Z.of_nat k0 + Z.of_nat m = q + 1 ->
    Py.sum (map (Sim.tmp_num_pred num_iter p)
                (map (fun k => 0 + Z.of_nat k * p) (seq k0 m)))
    = (if Nat.eqb m 0 then 0 else num_iter - Z.of_nat k0 * p)
    /\ Forall (fun s => 1 <= s <= p)
              (map (Sim.tmp_num_pred num_iter p)
                   (map (fun k => 0 + Z.of_nat k * p) (seq k0 m))).
Proof.
  intros Hp Hq. induction m as [|m IH]; intros k0 Hk.
  - simpl. split; [reflexivity|constructor].
  - cbn [seq map]. rewrite sum_cons.
    destruct (IH (S k0)) as (Hsum & Hall); [lia|].
    rewrite Hsum.
    assert (Hhead : Sim.tmp_num_pred num_iter p (0 + Z.of_nat k0 * p)
                    = (if Nat.eqb m 0 then num_iter - Z.of_nat k0 * p else p)
                    /\ 1 <= Sim.tmp_num_pred num_iter p (0 + Z.of_nat k0 * p)
                         <= p).
    { unfold Sim.tmp_num_pred. rewrite Z.gtb_ltb.
      destruct m as [|m']; simpl Nat.eqb; cbv iota.
      - assert (Z.of_nat k0 = q) by lia.
        destruct (Z.ltb_spec num_iter (0 + Z.of_nat k0 * p + p)); nia.
      - assert (Z.of_nat k0 + 1 <= q) by lia.
        destruct (Z.ltb_spec num_iter (0 + Z.of_nat k0 * p + p)); nia. }
    destruct Hhead as (Hhead & Hrange). split.
    + rewrite Hhead. simpl Nat.eqb. cbv iota.
      destruct (Nat.eqb m 0); lia.
    + constructor; assumption.
Qed.

(** X14. For at least one process and a non-negative number of iterations,
    the rounds of [multiprocess_simulate] submit [num_iter] simulations in
    all: each round submits between 1 and [num_processes] of them, and there
    are [ceil(num_iter / num_processes)] rounds. *)
Theorem rounds_cover_all_iterations :
  forall num_iter num_processes : Z,
    0 < num_processes ->
    0 <= num_iter ->
    exists sizes : list Z,
      Sim.round_sizes num_iter num_processes = Some sizes
      /\ Py.sum sizes = num_iter
      /\ Forall (fun s => 1 <= s <= num_processes) sizes
      /\ Z.of_nat (List.length sizes)
         = (num_iter + num_processes - 1) / num_processes.
Proof.
  intros N p Hp HN. unfold Sim.round_sizes, Sim.range.
  destruct (Z.eqb_spec p 0) as [|_]; [lia|].
  destruct (Z.ltb_spec 0 p) as [_|]; [|lia].
  destruct (Z.ltb_spec 0 N) as [Hpos|Hzero].
  - set (q := (N - 0 - 1) / p).
    assert (Hq : p * q <= N - 1 < p * q + p).
    { unfold q. replace (N - 0 - 1) with (N - 1) by lia.
      pose proof (Z.mul_div_le (N - 1) p Hp).
      pose proof (Z.mul_succ_div_gt (N - 1) p Hp). lia. }
    assert (Hq0 : 0 <= q) by (unfold q; apply Z.div_pos; lia).
    destruct (rounds_from N p q Hp Hq (Z.to_nat (q + 1)) 0%nat) as (Hsum & Hall);
      [lia|].
    eexists. split; [reflexivity|]. split; [|split].
    + rewrite Hsum.
      destruct (Nat.eqb_spec (Z.to_nat (q + 1)) 0); [lia|]. simpl. lia.
    + exact Hall.
    + rewrite !length_map, length_seq, Z2Nat.id by lia.
      unfold q. replace (N + p - 1) with (N - 0 - 1 + 1 * p) by lia.
      rewrite Z.div_add by lia. reflexivity.
  - assert (N = 0) by lia. subst N. simpl.
    exists []. repeat split; try constructor.
    symmetry. apply Z.div_small. lia.
Qed.

Lemma rounds_cover_all_iterations_witness :
  0 < 4 /\ 0 <= 10
  /\ exists sizes : list Z,
       Sim.round_sizes 10 4 = Some sizes
       /\ Py.sum sizes = 10
       /\ Forall (fun s => 1 <= s <= 4) sizes
       /\ Z.of_nat (List.length sizes) = (10 + 4 - 1) / 4.
Proof.
  assert (H1 : 0 < 4) by lia.
  assert (H2 : 0 <= 10) by lia.
  split; [exact H1|]. split; [exact H2|].
  exact (rounds_cover_all_iterations 10 4 H1 H2).
Defined.

(** * Strand "-" and the object's attributes *)

Lemma splice_candidate_minus_shape self coord k exon p :
  splice_candidate self "-" coord k exon = Some p ->
  (snd exon <= coord < snd exon + 2
   /\ Z.of_nat k <> num_exons self - 1
   /\ p = cds_len self + five_ss_len self
          + 2 * (num_exons self - (Z.of_nat k + 2)) + (coord - snd exon))
  \/ (fst exon - 2 <= coord < fst exon
      /\ Z.of_nat k <> 0
      /\ p = cds_len self + 2 * (num_exons self - (Z.of_nat k + 2))
             + (coord - (fst exon - 2))).
Proof.
  unfold splice_candidate, window_after, window_before.
  change ("-" =? "+")%string with false.
  change ("-" =? "-")%string with true.
  cbv beta iota zeta.
  destruct (interior coord exon); [discriminate|].
  destruct (Z.leb_spec (snd exon) coord), (Z.ltb_spec coord (snd exon + 2)),
    (Z.eqb_spec (Z.of_nat k) (num_exons self - 1)),
    (Z.leb_spec (fst exon - 2) coord), (Z.ltb_spec coord (fst exon)),
    (Z.eqb_spec (Z.of_nat k) 0); simpl; intros Hc; try discriminate;
    apply some_inj in Hc; auto; lia.
Qed.

Lemma query_splice self strand0 chr coord p :
  existsb (interior coord) (exons self) = false ->
  query_position self strand0 chr coord = Some p ->
  exists k exon,
    nth_error (exons self) k = Some exon
    /\ splice_candidate self strand0 coord k exon = Some p.
Proof.
  intros Hno H. rewrite query_position_closed_form in H.
  destruct (negb (chr =? chrom self)%string); [discriminate|].
  rewrite (first_interior_missing _ _ _ Hno) in H.
  apply last_candidate_in, candidates_in_nth in H as (k & exon & Hk & H).
  eauto.
Qed.

(** X15. With strand "-", a query that answers from a splice window: the two
    bases after exon [k] (not the last) land in
    [cds_len + five_ss_len, cds_len + 2 * five_ss_len); the two bases before
    exon [k] (not the first) land in
    [cds_len - 2, cds_len + five_ss_len - 2), two positions lower than the
    region after the coding positions, so only the window before the last
    exon can give a position below [cds_len]. *)
Theorem minus_strand_splice_regions :
  forall (self : BedLine) (chr : string) (genome_coord p : Z),
    coding_model self ->
    existsb (interior genome_coord) (exons self) = false ->
    query_position self "-" chr genome_coord = Some p ->
    exists (k : nat) (exon : Z * Z),
      nth_error (exons self) k = Some exon
      /\ ((window_after genome_coord exon = true
           /\ p = cds_len self + five_ss_len self
                  + 2 * (num_exons self - (Z.of_nat k + 2))
                  + (genome_coord - snd exon)
           /\ cds_len self + five_ss_len self <= p
              < cds_len self + 2 * five_ss_len self)
          \/ (window_before genome_coord exon = true
              /\ p = cds_len self + 2 * (num_exons self - (Z.of_nat k + 2))
                     + (genome_coord - (fst exon - 2))
              /\ cds_len self - 2 <= p < cds_len self + five_ss_len self - 2
              /\ (p < cds_len self -> Z.of_nat k = num_exons self - 1))).
Proof.
  intros self chr g p (Hlens & Hnum & Hcds & Hss) Hno H.
  apply query_splice in H as (k & exon & Hk & H); [|exact Hno].
  exists k, exon. split; [exact Hk|].
  assert (Hlt : Z.of_nat k < num_exons self).
  { rewrite Hnum. apply inj_lt. apply nth_error_Some. congruence. }
  apply splice_candidate_minus_shape in H as [(Hw & Hne & Hp)|(Hw & Hne & Hp)].
  - left. unfold window_after.
    destruct (Z.leb_spec (snd exon) g), (Z.ltb_spec g (snd exon + 2));
      try lia; simpl; repeat split; try assumption; lia.
  - right. unfold window_before.
    destruct (Z.leb_spec (fst exon - 2) g), (Z.ltb_spec g (fst exon));
      try lia; simpl; repeat split; try assumption; lia.
Qed.

Lemma minus_strand_splice_regions_witness :
  coding_model (bed_of two_exon_minus)
  /\ existsb (interior 298) (exons (bed_of two_exon_minus)) = false
  /\ query_position (bed_of two_exon_minus) "-" "chr1" 298 = Some 198
  /\ exists (k : nat) (exon : Z * Z),
       nth_error (exons (bed_of two_exon_minus)) k = Some exon
       /\ ((window_after 298 exon = true
            /\ 198 = cds_len (bed_of two_exon_minus)
                     + five_ss_len (bed_of two_exon_minus)
                     + 2 * (num_exons (bed_of two_exon_minus) - (Z.of_nat k + 2))
                     + (298 - snd exon)
            /\ cds_len (bed_of two_exon_minus)
               + five_ss_len (bed_of two_exon_minus) <= 198
               < cds_len (bed_of two_exon_minus)
                 + 2 * five_ss_len (bed_of two_exon_minus))
           \/ (window_before 298 exon = true
               /\ 198 = cds_len (bed_of two_exon_minus)
                        + 2 * (num_exons (bed_of two_exon_minus)
                               - (Z.of_nat k + 2))
                        + (298 - (fst exon - 2))
               /\ cds_len (bed_of two_exon_minus) - 2 <= 198
                  < cds_len (bed_of two_exon_minus)
                    + five_ss_len (bed_of two_exon_minus) - 2
               /\ (198 < cds_len (bed_of two_exon_minus) ->
                   Z.of_nat k = num_exons (bed_of two_exon_minus) - 1))).
Proof.
  assert (H1 : coding_model (bed_of two_exon_minus))
    by (apply (BedLine_init_coding_model (PyList two_exon_minus));
        vm_compute; reflexivity).
  assert (H2 : existsb (interior 298) (exons (bed_of two_exon_minus)) = false)
    by (vm_compute; reflexivity).
  assert (H3 : query_position (bed_of two_exon_minus) "-" "chr1" 298 = Some 198)
    by (vm_compute; reflexivity).
  split; [exact H1|]. split; [exact H2|]. split; [exact H3|].
  exact (minus_strand_splice_regions (bed_of two_exon_minus) "chr1" 298 198
           H1 H2 H3).
Defined.

(** X16. An object the constructor returns is consistent, whatever the order
    of the blocks: [get_num_exons] is the length of [get_exons] and never
    more than the number of entries of [blockStarts]; [exon_lens] holds end
    minus start of each coding exon; [cds_len] is their sum; [five_ss_len]
    is twice the number of exons minus two; gene name, chromosome and strand
    are fields 3, 0 and 5 of the record, kept as they are. *)
Theorem constructed_object_is_consistent :
  forall (line : py_line) (self : BedLine),
    BedLine_init line = Ok self ->
    get_num_exons self = Z.of_nat (List.length (get_exons self))
    /\ (List.length (get_exons self)
        <= List.length (entries (BedTuple.blockStarts (bed_tuple self))))%nat
    /\ exon_lens self = map (fun e => snd e - fst e) (get_exons self)
    /\ cds_len self = Py.sum (exon_lens self)
    /\ five_ss_len self = 2 * get_num_exons self - 2
    /\ exists l, fields_of line = Some l
                 /\ gene_name self = field 3 l
                 /\ chrom self = field 0 l
                 /\ strand self = field 5 l.
Proof.
  intros line self Hinit.
  apply BedLine_init_ok in Hinit as (l & Hl & Hinit).
  pose proof Hinit as Hinv.
  apply init_fields_ok in Hinv
    as (bt & cs & ce & raw & Hbt & Hbt2 & _ & Hraw & _ & _ & Hex
        & (Hlens & Hnum & Hcds & Hss)).
  unfold get_num_exons, get_exons.
  split; [exact Hnum|]. split; [|split; [exact Hlens|split; [exact Hcds|split]]].
  - rewrite Hbt2, <- (raw_exons_length _ _ _ Hraw), Hex.
    destruct (ce - cs <? 3); [simpl; lia|].
    rewrite filter_utr_loop_flat_map. apply flat_map_length_le. intros x.
    destruct (filter_utr_step_cases cs ce x) as [H|H]; rewrite H; simpl; lia.
  - lia.
  - exists l. split; [exact Hl|].
    unfold init_fields in Hinit. rewrite of_fields_spec in Hinit.
    destruct (12 <=? List.length l)%nat; [|discriminate].
    cbn [bind] in Hinit. unfold init_tuple in Hinit.
    apply bind_ok in Hinit as (c & _ & Hinit).
    apply bind_ok in Hinit as (r & _ & Hinit).
    apply bind_ok in Hinit as (o & _ & Hinit).
    apply ok_inj in Hinit. subst self. repeat split; reflexivity.
Qed.

Lemma constructed_object_is_consistent_witness :
  BedLine_init (PyList touching_utr) = Ok (bed_of touching_utr)
  /\ get_num_exons (bed_of touching_utr)
     = Z.of_nat (List.length (get_exons (bed_of touching_utr)))
  /\ cds_len (bed_of touching_utr) = Py.sum (exon_lens (bed_of touching_utr)).
Proof.
  assert (H : BedLine_init (PyList touching_utr) = Ok (bed_of touching_utr))
    by (vm_compute; reflexivity).
  split; [exact H|].
  pose proof (constructed_object_is_consistent (PyList touching_utr)
                (bed_of touching_utr) H) as (Ha & _ & _ & Hb & _).
  split; [exact Ha|exact Hb].
Defined.
